(** * LowkeyType: the typing-session engine of [LowkeyType.c]

    A shallow embedding of the scoring and session code of the typing
    trainer, and the properties of it that the specification states.

    Conventions of the embedding.
    - A C [int] is a [Z]. Signed overflow is undefined in C and is not
      modelled: the counters of a session are bounded by the number of
      key events read (lemma [counters_bounded] below), and a statement
      about the sums kept in a profile carries the condition that they
      are values of an [int] ([fits_int]).
    - A C string is a Rocq [string] read up to its first NUL character:
      [strlen] stops there and [char_at] reads NUL past the end.
    - A C [float] or [double] is a [cfloat]: an exact rational, or one of
      the IEEE special values that a division by zero produces.  Rounding
      of finite values is not modelled; comparisons are exact, as they are
      in C, and the endurance loop, which decides by comparing the figures
      of a session with its thresholds, is stated over the procedure that
      plays a session, for any figures it returns.
    - Console output (colours, cursor movement by [getConsoleWidth],
      [printf]) and the saving of profiles to the users file are dropped;
      the keyboard and the processor clock are explicit inputs. *)

From Stdlib Require Import ZArith QArith Qminmax Lia Bool String Ascii List.
From Stdlib Require Import Sorted.
From stdpp Require Import base list.
Import ListNotations.

Local Open Scope Z_scope.

(* ===================================================================== *)
(** ** Floating-point values *)
(* ===================================================================== *)

Module CFloat.

(** Finite values are kept as reduced fractions, so that equal values are
    equal terms. *)
Inductive cfloat : Type :=
| Fin (q : Q)
| PInf
| NInf
| NaN.

Definition fin (q : Q) : cfloat := Fin (Qred q).

Definition of_int (z : Z) : cfloat := Fin (inject_Z z).

Definition is_finite (x : cfloat) : bool :=
  match x with Fin _ => true | _ => false end.

(** Sign of a value that is not NaN, as [-1], [0] or [1]. *)
Definition sgn (x : cfloat) : Z :=
  match x with
  | Fin q => Z.sgn (Qnum q)
  | PInf => 1
  | NInf => -1
  | NaN => 0
  end.

Definition inf_of_sign (s : Z) : cfloat :=
  if s <? 0 then NInf else PInf.

Definition fneg (x : cfloat) : cfloat :=
  match x with
  | Fin q => fin (Qopp q)
  | PInf => NInf
  | NInf => PInf
  | NaN => NaN
  end.

Definition fadd (x y : cfloat) : cfloat :=
  match x, y with
  | NaN, _ | _, NaN => NaN
  | Fin a, Fin b => fin (Qplus a b)
  | PInf, NInf | NInf, PInf => NaN
  | PInf, _ | _, PInf => PInf
  | NInf, _ | _, NInf => NInf
  end.

Definition fsub (x y : cfloat) : cfloat := fadd x (fneg y).

Definition fmul (x y : cfloat) : cfloat :=
  match x, y with
  | NaN, _ | _, NaN => NaN
  | Fin a, Fin b => fin (Qmult a b)
  | _, _ =>
      (* an infinity times zero is NaN, otherwise the signs multiply *)
      if (sgn x * sgn y =? 0) then NaN else inf_of_sign (sgn x * sgn y)
  end.

(** Division with the IEEE results for a zero divisor. Zeros carry no
    sign in this model: every zero divisor met in the program is a
    positive zero, an integer 0 converted or a zero divided by a positive
    constant. *)
Definition fdiv (x y : cfloat) : cfloat :=
  match x, y with
  | NaN, _ | _, NaN => NaN
  | Fin a, Fin b =>
      if Qnum b =? 0
      then (if Qnum a =? 0 then NaN else inf_of_sign (Z.sgn (Qnum a)))
      else fin (Qdiv a b)
  | Fin _, _ => Fin 0
  | _, Fin b => inf_of_sign (if Qnum b =? 0 then sgn x else sgn x * sgn y)
  | _, _ => NaN
  end.

(** Comparisons are false as soon as one side is NaN. *)
Definition flt (x y : cfloat) : bool :=
  match x, y with
  | NaN, _ | _, NaN => false
  | Fin a, Fin b => match Qcompare a b with Lt => true | _ => false end
  | PInf, _ | _, NInf => false
  | NInf, _ | _, PInf => true
  end.

Definition fgt (x y : cfloat) : bool := flt y x.

Definition fge (x y : cfloat) : bool :=
  match x, y with
  | NaN, _ | _, NaN => false
  | _, _ => negb (flt x y)
  end.

(** [x] is a number between [lo] and [hi]. *)
Definition between (lo hi : Q) (x : cfloat) : Prop :=
  match x with
  | Fin q => (lo <= q)%Q /\ (q <= hi)%Q
  | _ => False
  end.

End CFloat.
Export CFloat.

(* ===================================================================== *)
(** ** C strings and loops *)
(* ===================================================================== *)

Definition NUL : ascii := Ascii.zero.

Definition char_eqb (a b : ascii) : bool := Ascii.eqb a b.

(** [strlen]: the number of characters before the first NUL. *)
Fixpoint strlen (s : string) : nat :=
  match s with
  | EmptyString => 0%nat
  | String c r => if char_eqb c NUL then 0%nat else S (strlen r)
  end.

(** [s[i]]; the terminator is read at and after the end. *)
Fixpoint char_at (s : string) (i : nat) : ascii :=
  match s, i with
  | EmptyString, _ => NUL
  | String c r, O => c
  | String c r, S j => if char_eqb c NUL then NUL else char_at r j
  end.

(** [for (int i = 0; i < n; i++) body], threading the variables the body
    updates. *)
Definition for_range {St : Type} (n : nat) (body : nat -> St -> St) (s : St) : St :=
  fold_left (fun acc i => body i acc) (seq 0 n) s.

(* ===================================================================== *)
(** ** Accuracy scorer: [calculateAccuracy] *)
(* ===================================================================== *)

Record Scored : Type := mkScored {
  sc_accuracy : cfloat;   (* the return value *)
  sc_correct : Z;         (* local [correctChars] *)
  sc_mistyped : Z;        (* [*mistyped] *)
  sc_missed : Z;          (* [*missed] *)
  sc_extra : Z            (* [*extra] *)
}.

(** The body of the comparison loop: updates [(correctChars, mistypedChars)]. *)
Definition compare_body (target typed : string) (i : nat) (cm : Z * Z) : Z * Z :=
  let '(correctChars, mistypedChars) := cm in
  if char_eqb (char_at typed i) (char_at target i)
  then (correctChars + 1, mistypedChars)
  else (correctChars, mistypedChars + 1).

Definition calculateAccuracy (target typed : string) : Scored :=
  let targetLen := Z.of_nat (strlen target) in
  let typedLen := Z.of_nat (strlen typed) in
  let minLen := if targetLen <? typedLen then targetLen else typedLen in
  let '(correctChars, mistypedChars) :=
    for_range (Z.to_nat minLen) (compare_body target typed) (0, 0) in
  let missedChars := if typedLen <? targetLen then targetLen - typedLen else 0 in
  let extraChars := if typedLen >? targetLen then typedLen - targetLen else 0 in
  let totalErrors := mistypedChars + missedChars + extraChars in
  let accuracy :=
    fmul (Fin 100) (fsub (Fin 1) (fdiv (of_int totalErrors) (of_int targetLen))) in
  let accuracy := if targetLen =? 0 then Fin 0 else accuracy in
  let accuracy := if flt accuracy (Fin 0) then Fin 0 else accuracy in
  mkScored accuracy correctChars mistypedChars missedChars extraChars.

(* ===================================================================== *)
(** ** Keyboard and clock *)
(* ===================================================================== *)

(** The values of [<time.h>] and of the word sampler that the session code
    depends on: [CLOCKS_PER_SEC], the value returned by the n-th call of
    [clock()], and the text built for the round that starts after
    [roundsCompleted] finished rounds. *)
Record Env : Type := mkEnv {
  CLOCKS_PER_SEC : Z;
  clock_trace : nat -> Z;
  sampleRound : Z -> string
}.

(** What the program has consumed so far: the key codes still to be
    returned by [getch()], and the number of calls of [clock()]. *)
Record World : Type := mkWorld {
  stdin : list Z;
  clock_calls : nat
}.

(** A computation returns a value in a new world, or never returns because
    it waits for a key that does not come. *)
Inductive Run (A : Type) : Type :=
| Ret (a : A) (w : World)
| Starved.
Arguments Ret {A} a w.
Arguments Starved {A}.

Definition M (A : Type) : Type := World -> Run A.

Definition ret {A} (a : A) : M A := fun w => Ret a w.

Definition bind {A B} (c : M A) (k : A -> M B) : M B :=
  fun w => match c w with
           | Ret a w' => k a w'
           | Starved => Starved
           end.

Notation "'do' x <- c ; k" := (bind c (fun x => k))
  (at level 10, x name, c at level 100, k at level 200).
Notation "'do_' c ; k" := (bind c (fun _ => k))
  (at level 10, c at level 100, k at level 200).

Definition getch : M Z :=
  fun w => match stdin w with
           | [] => Starved
           | k :: ks => Ret k (mkWorld ks (clock_calls w))
           end.

Definition clock (env : Env) : M Z :=
  fun w => Ret (clock_trace env (clock_calls w))
               (mkWorld (stdin w) (S (clock_calls w))).

(** [char ch = getch();] keeps the low eight bits of the key code. *)
Definition to_char (k : Z) : ascii := ascii_of_N (Z.to_N (k mod 256)).

Definition code (c : ascii) : Z := Z.of_N (N_of_ascii c).

Definition is_esc (c : ascii) : bool := code c =? 27.

Definition is_backspace (c : ascii) : bool := (code c =? 8) || (code c =? 127).

(** [isprint] in the C locale. *)
Definition isprint (c : ascii) : bool := (32 <=? code c) && (code c <=? 126).

(* ===================================================================== *)
(** ** Live session: [typingTest] *)
(* ===================================================================== *)

Record TypingResult : Type := mkResult {
  totalChars : Z;
  correctChars : Z;
  mistyped : Z;
  missed : Z;
  extra : Z;
  accuracy : cfloat;
  wpm : cfloat;
  timeTaken : cfloat;
  text : string
}.

(** The local variables of [typingTest] that the input loop updates.
    [pos] indexes the two arrays and is decremented only when positive, so
    it is a [nat]. *)
Record Session : Type := mkSession {
  typedText : list ascii;       (* char typedText[1000] *)
  mistakeFlags : list bool;     (* char mistakeFlags[1000] *)
  pos : nat;
  totalKeystrokes : Z;
  incorrectKeystrokes : Z;
  testFinished : bool
}.

Definition BUFSIZE : nat := 1000.

Definition init_session : Session :=
  mkSession (replicate BUFSIZE NUL) (replicate BUFSIZE false) 0 0 0 false.

(** Array reads; every index the loop uses is below [BUFSIZE]. *)
Definition typed_at (buf : list ascii) (i : nat) : ascii := default NUL (buf !! i).
Definition flag_at (flags : list bool) (i : nat) : bool := default false (flags !! i).

(** One iteration of the re-render loop, as far as it changes
    [(incorrectKeystrokes, mistakeFlags)]. Its three outcomes for position
    [i] are green, red within the text, and red beyond the text. *)
Definition render_body (text : string) (typed : list ascii) (i : nat)
    (st : Z * list bool) : Z * list bool :=
  let '(incorrect, flags) := st in
  if (i <? strlen text)%nat then
    if char_eqb (typed_at typed i) (char_at text i) then (incorrect, flags)
    else if flag_at flags i then (incorrect, flags)
         else (incorrect + 1, <[i := true]> flags)
  else (incorrect + 1, flags).

(** [for (int i = 0; i <= pos; i++)]. *)
Definition render (text : string) (typed : list ascii) (pos : nat)
    (st : Z * list bool) : Z * list bool :=
  for_range (S pos) (render_body text typed) st.

(** The loop body after the ESC test, for the character [ch]. *)
Definition on_key (text : string) (s : Session) (ch : ascii) : Session :=
  if is_backspace ch && (0 <? pos s)%nat then
    let pos' := (pos s - 1)%nat in
    let typed := <[pos' := NUL]> (typedText s) in
    let '(incorrect, flags) :=
      render text typed pos' (incorrectKeystrokes s, mistakeFlags s) in
    mkSession typed flags pos' (totalKeystrokes s) incorrect (testFinished s)
  else if isprint ch && (pos s <? 999)%nat then
    let typed := <[S (pos s) := NUL]> (<[pos s := ch]> (typedText s)) in
    let '(incorrect, flags) :=
      render text typed (pos s) (incorrectKeystrokes s, mistakeFlags s) in
    let pos' := S (pos s) in
    mkSession typed flags pos' (totalKeystrokes s + 1) incorrect
              (if (strlen text <=? pos')%nat then true else testFinished s)
  else s.

(** [while (!testFinished && pos < textLength)]. *)
Definition loop_cond (text : string) (s : Session) : bool :=
  negb (testFinished s) && (pos s <? strlen text)%nat.

Inductive LoopExit : Type :=
| Cancelled (rest : list Z)              (* [return 0] from inside the loop *)
| Finished (s : Session) (rest : list Z) (* the loop condition failed *)
| Waiting.                               (* no key left to read *)

Fixpoint typing_loop (text : string) (keys : list Z) (s : Session) : LoopExit :=
  if loop_cond text s then
    match keys with
    | [] => Waiting
    | k :: rest =>
        if is_esc (to_char k) then Cancelled rest
        else typing_loop text rest (on_key text s (to_char k))
    end
  else Finished s keys.

(** [strncpy(result->text, text, 1000); result->text[999] = 0]. *)
Fixpoint cstr_take (n : nat) (s : string) : string :=
  match n, s with
  | O, _ | _, EmptyString => EmptyString
  | S m, String c r => if char_eqb c NUL then EmptyString else String c (cstr_take m r)
  end.

(** The fields written after the loop. [mistyped], [missed] and [extra] are
    not assigned by [typingTest] and keep what [*result] held. *)
Definition session_result (env : Env) (text : string) (result : TypingResult)
    (s : Session) (start finish : Z) : TypingResult :=
  let timeTaken := fdiv (of_int (finish - start)) (of_int (CLOCKS_PER_SEC env)) in
  let correct := totalKeystrokes s - incorrectKeystrokes s in
  mkResult (totalKeystrokes s) correct
           (mistyped result) (missed result) (extra result)
           (if totalKeystrokes s =? 0 then Fin 0
            else fdiv (fmul (Fin 100) (of_int correct)) (of_int (totalKeystrokes s)))
           (fdiv (fdiv (of_int (Z.of_nat (pos s))) (Fin 5)) (fdiv timeTaken (Fin 60)))
           timeTaken
           (cstr_take 999 text).

(** [typingTest(text, &result, state)]: the status and the contents of
    [*result] afterwards. [result] is what the caller's variable held. *)
Definition typingTest (env : Env) (text : string) (result : TypingResult)
    : M (Z * TypingResult) :=
  do_ getch;                           (* "Press any key to start typing..." *)
  do start <- clock env;
  fun w =>
    match typing_loop text (stdin w) init_session with
    | Waiting => Starved
    | Cancelled rest => Ret (0, result) (mkWorld rest (clock_calls w))
    | Finished s rest =>
        (do finish <- clock env;
         ret (1, session_result env text result s start finish))
        (mkWorld rest (clock_calls w))
    end.

(* ===================================================================== *)
(** ** Profiles: [processTypingResults] *)
(* ===================================================================== *)

Record User : Type := mkUser {
  name : string;
  bestWPM : cfloat;
  bestAccuracy : cfloat;
  testsCompleted : Z;
  enduranceHighScore : Z;
  averageAccuracy : cfloat;
  totalCharsTyped : Z;
  totalCorrectChars : Z
}.

(** The part of [AppState] the session code reads and writes. The word
    list is represented by [sampleRound] and by the text handed to
    [rawSpeedMode]. *)
Record AppState : Type := mkState {
  users : list User;
  currentUserIndex : nat
}.

(** An update of [state->users[state->currentUserIndex]]. *)
Definition update_current (f : User -> User) (state : AppState) : AppState :=
  mkState (alter f (currentUserIndex state) (users state)) (currentUserIndex state).

(** The sums of the first loop of [processTypingResults]:
    [(totalWPM, totalAccuracy, totalChars, totalCorrectChars)]. *)
Definition sum_results (results : list TypingResult) : cfloat * cfloat * Z * Z :=
  fold_left
    (fun acc r =>
       let '(totalWPM, totalAccuracy, sumChars, sumCorrect) := acc in
       (fadd totalWPM (wpm r), fadd totalAccuracy (accuracy r),
        sumChars + totalChars r, sumCorrect + correctChars r))
    results (Fin 0, Fin 0, 0, 0).

(** The profile after [processTypingResults]. The three [int] fields are
    sums on [Z]; they are the sums of the program where no sum leaves the
    values of an [int] ([sums_fit] below). *)
Definition fold_results (results : list TypingResult) (user : User) : User :=
  let count := Z.of_nat (length results) in
  let '(totalWPM, totalAccuracy, sumChars, sumCorrect) := sum_results results in
  let avgWPM := fdiv totalWPM (of_int count) in
  let avgAccuracy := fdiv totalAccuracy (of_int count) in
  let typed := totalCharsTyped user + sumChars in
  let correct := totalCorrectChars user + sumCorrect in
  mkUser (name user)
         (if fgt avgWPM (bestWPM user) then avgWPM else bestWPM user)
         (if fgt avgAccuracy (bestAccuracy user) then avgAccuracy else bestAccuracy user)
         (testsCompleted user + count)
         (enduranceHighScore user)
         (fmul (fdiv (of_int correct) (of_int typed)) (Fin 100))
         typed
         correct.

Definition processTypingResults (results : list TypingResult) (state : AppState)
    : M AppState :=
  let state' := update_current (fold_results results) state in
  do_ getch;                           (* "Press any key to return to menu..." *)
  ret state'.

(* ===================================================================== *)
(** ** Fixed-length test: [rawSpeedMode] *)
(* ===================================================================== *)

(** [rawSpeedMode] from the point where the word list has been read:
    [wordsLoaded] is the result of [loadWordsFromFile], [targetText] the
    text built from the sampled words, and [result] the contents of the
    uninitialised local [TypingResult result]. The two numeric prompts
    before are not modelled. *)
Definition rawSpeedMode (env : Env) (wordsLoaded : bool) (targetText : string)
    (result : TypingResult) (state : AppState) : M AppState :=
  if negb wordsLoaded then
    do_ getch; ret state
  else
    do sr <- typingTest env targetText result;   (* the status is not used *)
    processTypingResults [snd sr] state.

(* ===================================================================== *)
(** ** Endurance controller: [enduranceMode] *)
(* ===================================================================== *)

Definition ENDURANCE_ACCURACY_THRESHOLD : cfloat := Fin 85.
Definition ENDURANCE_WPM_THRESHOLD : cfloat := Fin 30.
Definition wordsPerRound : Z := 10.

Record EnduranceRun : Type := mkRun {
  roundsCompleted : Z;
  currentAccuracy : cfloat;
  currentWPM : cfloat;
  totalWordsCompleted : Z;
  testCanceled : bool
}.

Definition init_run : EnduranceRun := mkRun 0 (Fin 100) (Fin 100) 0 false.

Definition endurance_cond (st : EnduranceRun) : bool :=
  fge (currentAccuracy st) ENDURANCE_ACCURACY_THRESHOLD
  && fge (currentWPM st) ENDURANCE_WPM_THRESHOLD
  && negb (testCanceled st).

(** The variables after a round that [typingTest] finished. *)
Definition finish_round (result : TypingResult) (st : EnduranceRun) : EnduranceRun :=
  mkRun (roundsCompleted st + 1) (accuracy result) (wpm result)
        (totalWordsCompleted st + wordsPerRound) (testCanceled st).

Definition cancel_round (st : EnduranceRun) : EnduranceRun :=
  mkRun (roundsCompleted st) (currentAccuracy st) (currentWPM st)
        (totalWordsCompleted st) true.

(** The key read by "Press any key to start next round...", reached
    only when neither threshold message is printed. *)
Definition next_round_prompt (st : EnduranceRun) : M unit :=
  if flt (currentAccuracy st) ENDURANCE_ACCURACY_THRESHOLD then ret tt
  else if flt (currentWPM st) ENDURANCE_WPM_THRESHOLD then ret tt
  else do_ getch; ret tt.

(** One typing session as the loop calls it: the text to type and the
    record to fill, giving the status and the record afterwards. The loop
    is written over this procedure and over the text shown in each round,
    so that what is proved of the controller holds for whatever figures a
    session stores in its record, however they were rounded;
    [enduranceMode] below is the loop at [typingTest]. *)
Definition SessionProc : Type := string -> TypingResult -> M (Z * TypingResult).

(** The [while] loop of [enduranceMode]. A session of [typingTest] reads
    at least one key, so [fuel] iterations are enough for an input of
    [fuel] keys (lemma [endurance_loop_fuel]). *)
Fixpoint endurance_loop (session : SessionProc) (sample : Z -> string)
    (fuel : nat) (result : TypingResult) (st : EnduranceRun) : M EnduranceRun :=
  if endurance_cond st then
    match fuel with
    | O => fun _ => Starved
    | S fuel' =>
        do sr <- session (sample (roundsCompleted st)) result;
        if fst sr =? 0 then
          endurance_loop session sample fuel' result (cancel_round st)
        else
          let st' := finish_round (snd sr) st in
          do_ next_round_prompt st';
          endurance_loop session sample fuel' result st'
    end
  else ret st.

(** The profile update after the loop; the new [testsCompleted] is a sum
    on [Z], as in [fold_results]. *)
Definition fold_endurance (st : EnduranceRun) (user : User) : User :=
  mkUser (name user) (bestWPM user) (bestAccuracy user)
         (testsCompleted user + roundsCompleted st)
         (if totalWordsCompleted st >? enduranceHighScore user
          then totalWordsCompleted st else enduranceHighScore user)
         (averageAccuracy user) (totalCharsTyped user) (totalCorrectChars user).

(** [enduranceMode] from the call of [loadWordsFromFile] on, over the
    session procedure; [result] is what the loop's uninitialised local
    [TypingResult result] holds. The function returns nothing in C; the
    final loop variables, which it prints, are returned with the new
    state. *)
Definition enduranceMode_with (session : SessionProc) (sample : Z -> string)
    (wordsLoaded : bool) (result : TypingResult) (state : AppState)
    : M (EnduranceRun * AppState) :=
  if negb wordsLoaded then
    do_ getch; ret (init_run, state)
  else
    do st <- (fun w => endurance_loop session sample (length (stdin w)) result init_run w);
    let state' := update_current (fold_endurance st) state in
    do_ getch;                         (* "Press any key to return to main menu..." *)
    ret (st, state').

(** [enduranceMode]: the sessions are those of [typingTest], the text of a
    round is the one sampled for it. *)
Definition enduranceMode (env : Env) (wordsLoaded : bool) (result : TypingResult)
    (state : AppState) : M (EnduranceRun * AppState) :=
  enduranceMode_with (typingTest env) (sampleRound env) wordsLoaded result state.

(* ===================================================================== *)
(** ** Vocabulary of the specification *)
(* ===================================================================== *)

(** Number of positions below [n] that satisfy [p]. *)
Definition count_upto (p : nat -> bool) (n : nat) : nat :=
  length (List.filter p (seq 0 n)).

(** Position [i] holds the same character in both strings. *)
Definition agree (target typed : string) (i : nat) : bool :=
  char_eqb (char_at typed i) (char_at target i).

(** The accuracy the specification prescribes for a target of length
    [targetLen] and [totalErrors] errors:
    [100 * (1 - totalErrors / targetLen)], not below 0, and 0 for an empty
    target. *)
Definition accuracy_formula (targetLen totalErrors : Z) : cfloat :=
  if targetLen =? 0 then Fin 0
  else fin (Qmax 0 (100 * (1 - inject_Z totalErrors / inject_Z targetLen))).

(** The session after the loop body has run for every key of [keys],
    none of which is ESC, each one read while the loop condition held;
    [None] if the loop would have stopped before reading them all. *)
Fixpoint run_keys (text : string) (keys : list Z) (s : Session) : option Session :=
  match keys with
  | [] => Some s
  | k :: rest =>
      if loop_cond text s && negb (is_esc (to_char k))
      then run_keys text rest (on_key text s (to_char k))
      else None
  end.

(** [strlen(typedText)]. *)
Fixpoint buf_strlen (buf : list ascii) : nat :=
  match buf with
  | [] => 0%nat
  | c :: r => if char_eqb c NUL then 0%nat else S (buf_strlen r)
  end.

(** Size of the mistake mask. *)
Definition count_true (flags : list bool) : nat :=
  length (List.filter (fun b : bool => b) flags).

(** The positions the re-render loop visits for the key [ch]. *)
Definition visited (s : Session) (ch : ascii) : list nat :=
  if is_backspace ch && (0 <? pos s)%nat then seq 0 (S (pos s - 1))
  else if isprint ch && (pos s <? 999)%nat then seq 0 (S (pos s))
  else [].

(** What holds of the loop variables whenever the loop condition is
    evaluated. *)
Record session_inv (text : string) (s : Session) : Prop := mkInv {
  inv_typed_len : length (typedText s) = BUFSIZE;
  inv_flags_len : length (mistakeFlags s) = BUFSIZE;
  inv_pos_text : (pos s <= strlen text)%nat;
  inv_pos_buf : (pos s <= 999)%nat;
  inv_typed_head : forall i, (i < pos s)%nat -> typed_at (typedText s) i <> NUL;
  inv_typed_tail : forall i, (pos s <= i)%nat -> typed_at (typedText s) i = NUL;
  inv_flagged : forall i, (i < pos s)%nat ->
      typed_at (typedText s) i <> char_at text i -> flag_at (mistakeFlags s) i = true;
  inv_counted : incorrectKeystrokes s = Z.of_nat (count_true (mistakeFlags s));
  inv_finished : testFinished s = true -> pos s = strlen text
}.

(** [st2] has at least the error count and the mask of [st1]. *)
Definition grows (st1 st2 : Z * list bool) : Prop :=
  fst st1 <= fst st2
  /\ forall j, flag_at (snd st1) j = true -> flag_at (snd st2) j = true.

(** C2 as the specification words it: every wrong printable character
    typed at the cursor adds one to [incorrectKeystrokes], whatever was
    typed at that position before. *)
Definition every_wrong_key_counted : Prop :=
  forall (text : string) (keys : list Z) (s : Session) (ch : ascii),
    run_keys text keys init_session = Some s ->
    loop_cond text s = true ->
    isprint ch = true ->
    (pos s < 999)%nat ->
    ch <> char_at text (pos s) ->
    incorrectKeystrokes (on_key text s ch) = incorrectKeystrokes s + 1.

(** Key codes of the characters of a string. *)
Definition keys_of (s : string) : list Z := map code (list_ascii_of_string s).

(** A scripted endurance run: every round shows the twenty letters [a] to
    [t], the processor clock advances by six seconds between two readings,
    and the user types the three rounds with one, two and four wrong
    characters. *)
Definition script_env : Env :=
  mkEnv 1000000 (fun n => Z.of_nat n * 6000000) (fun _ => "abcdefghijklmnopqrst"%string).

Definition script_keys : list Z :=
  [32] ++ keys_of "xbcdefghijklmnopqrst" ++ [32]
  ++ [32] ++ keys_of "xycdefghijklmnopqrst" ++ [32]
  ++ [32] ++ keys_of "xyzwefghijklmnopqrst"
  ++ [32].

(** The same run with the second round cancelled: after the first round
    and the key of the prompt, the start key, one letter and ESC; then the
    key of the closing prompt and two keys that nothing reads. *)
Definition script_keys_esc : list Z :=
  [32] ++ keys_of "xbcdefghijklmnopqrst" ++ [32]
  ++ [32; 97; 27]
  ++ [32; 97; 98].

Definition script_user : User :=
  mkUser "ada" (Fin 50) (Fin 97) 4 20 (Fin 93) 800 744.

(* ===================================================================== *)
(** ** Skill label: [showProfile] *)
(* ===================================================================== *)

Inductive Skill : Type := Expert | Advanced | Intermediate | Beginner.

(** The skill label [showProfile] prints. *)
Definition skillAssessment (user : User) : Skill :=
  let normalizedWPM := fmul (fdiv (bestWPM user) (Fin 200)) (Fin 100) in
  let skillRating :=
    fadd (fadd (fmul normalizedWPM (Fin (1 # 2)))
               (fmul (bestAccuracy user) (Fin (3 # 10))))
         (fmul (averageAccuracy user) (Fin (2 # 10))) in
  let skillRating := if fgt skillRating (Fin 100) then Fin 100 else skillRating in
  if fgt skillRating (Fin 100) then Expert
  else if fgt skillRating (Fin 80) then Advanced
  else if fgt skillRating (Fin 60) then Intermediate
  else Beginner.

(* ===================================================================== *)
(** ** The user table: [findUserIndex] and the login of [main] *)
(* ===================================================================== *)

Definition MAX_USERS : nat := 100.

(** The characters of a C string, up to its terminator. *)
Fixpoint cstr (s : string) : string :=
  match s with
  | EmptyString => EmptyString
  | String c r => if char_eqb c NUL then EmptyString else String c (cstr r)
  end.

(** [strcmp(a, b) == 0]. *)
Definition strcmp_eqb (a b : string) : bool := String.eqb (cstr a) (cstr b).

(** The search loop from index [i] on. *)
Fixpoint find_from (i : Z) (us : list User) (username : string) : Z :=
  match us with
  | [] => -1
  | u :: rest =>
      if strcmp_eqb (name u) username then i else find_from (i + 1) rest username
  end.

(** [findUserIndex]; [userCount] is the length of [users]. *)
Definition findUserIndex (username : string) (state : AppState) : Z :=
  find_from 0 (users state) username.

(** The profile [main] creates for an unknown name. *)
Definition new_user (username : string) : User :=
  mkUser (cstr username) (Fin 0) (Fin 0) 0 0 (Fin 0) 0 0.

(** The login of [main] after the name has been read: the state with the
    current user chosen, or [None] where [main] returns 1 because the
    table is full. *)
Definition selectUser (username : string) (state : AppState) : option AppState :=
  let index := findUserIndex username state in
  if index =? -1 then
    if (length (users state) <? MAX_USERS)%nat
    then Some (mkState (users state ++ [new_user username]) (length (users state)))
    else None
  else Some (mkState (users state) (Z.to_nat index)).


(* ===================================================================== *)
(** ** Leaderboard: [sortUsersByWPM], [showLeaderboard] *)
(* ===================================================================== *)

(** The body of the inner loop: [users[j]] and [users[j + 1]] are swapped
    when the first has the lower [bestWPM]. Both indices are below
    [userCount] in every call. *)
Definition swap_step (j : nat) (us : list User) : list User :=
  match us !! j, us !! S j with
  | Some a, Some b =>
      if flt (bestWPM a) (bestWPM b) then <[S j := a]> (<[j := b]> us) else us
  | _, _ => us
  end.

Definition sortUsersByWPM (us : list User) (userCount : nat) : list User :=
  for_range (userCount - 1)
            (fun i us => for_range (userCount - i - 1) swap_step us) us.

(** What [showLeaderboard] prints below the header: the ranked rows, and
    the row of the current user when it is not among them. *)
Record Board : Type := mkBoard {
  rows : list (Z * User);
  you : option (Z * User)
}.

(** [showLeaderboard] for a table that is not empty; [current] is
    [users[currentUserIndex]]. *)
Definition leaderboard (us : list User) (current : User) : Board :=
  let userCount := length us in
  let sortedUsers := sortUsersByWPM us userCount in
  let found := find_from 0 sortedUsers (name current) in
  let currentUserRank := if found =? -1 then -1 else found + 1 in
  let displayCount := if (userCount <? 5)%nat then userCount else 5%nat in
  mkBoard
    (for_range displayCount
       (fun i shown =>
          match sortedUsers !! i with
          | Some u => shown ++ [(Z.of_nat i + 1, u)]
          | None => shown
          end) [])
    (if currentUserRank >? 5 then Some (currentUserRank, current) else None).

(** One pass of the inner loop over [a :: l], as a recursion on the list:
    the elements left behind, and the one carried to the end. *)
Fixpoint bubble_carry (a : User) (l : list User) : list User * User :=
  match l with
  | [] => ([], a)
  | b :: r =>
      if flt (bestWPM a) (bestWPM b)
      then let '(p, c) := bubble_carry a r in (b :: p, c)
      else let '(p, c) := bubble_carry b r in (a :: p, c)
  end.

(** [a] is not ranked below [b]. *)
Definition wpm_ge (a b : User) : Prop := flt (bestWPM a) (bestWPM b) = false.

Definition is_nan (x : cfloat) : bool :=
  match x with NaN => true | _ => false end.


(* ===================================================================== *)
(** ** Menu input: [getValidIntInput] *)
(* ===================================================================== *)

(** [buffer[strcspn(buffer, "\n")] = 0]: the buffer as a C string, cut at
    its first newline. *)
Fixpoint chop_newline (s : string) : string :=
  match s with
  | EmptyString => EmptyString
  | String c r =>
      if char_eqb c NUL || (code c =? 10) then EmptyString
      else String c (chop_newline r)
  end.

(** [isdigit((unsigned char)c)]. *)
Definition is_digit (c : ascii) : bool := (48 <=? code c) && (code c <=? 57).

(** The loop that clears [allDigits] at the first character that is not a
    digit. *)
Fixpoint all_digits (s : string) : bool :=
  match s with
  | EmptyString => true
  | String c r => is_digit c && all_digits r
  end.

Definition INT_MAX : Z := 2147483647.

(** The number a string of digits denotes. *)
Fixpoint decimal (acc : Z) (s : string) : Z :=
  match s with
  | EmptyString => acc
  | String c r => decimal (acc * 10 + (code c - 48)) r
  end.

(** [atoi] on a string of digits. The C standard leaves the result open
    when the number does not fit an [int]; [overflow] is what the library
    returns then. *)
Definition atoi (overflow : Z -> Z) (s : string) : Z :=
  let v := decimal 0 s in
  if v <=? INT_MAX then v else overflow v.

(** One round of the input loop on the line [fgets] stored: the accepted
    value, or [None] when the line is refused. *)
Definition parse_choice (overflow : Z -> Z) (min max : Z) (buffer : string)
    : option Z :=
  let buffer := chop_newline buffer in
  if (strlen buffer =? 0)%nat then None
  else if negb (all_digits buffer) then None
  else
    let value := atoi overflow buffer in
    if (value <? min) || (value >? max) then None else Some value.

(** [getValidIntInput(min, max)] on the lines [fgets] returns one after the
    other; at the end of the input [fgets] fails for ever and the function
    does not return. The result comes with the lines left. *)
Fixpoint getValidIntInput (overflow : Z -> Z) (min max : Z) (lines : list string)
    : option (Z * list string) :=
  match lines with
  | [] => None
  | buffer :: rest =>
      match parse_choice overflow min max buffer with
      | Some value => Some (value, rest)
      | None => getValidIntInput overflow min max rest
      end
  end.


(* ===================================================================== *)
(** ** Vocabulary for the further properties *)
(* ===================================================================== *)

(** Every character of the C string [s] is printable. *)
Fixpoint all_printable (s : string) : bool :=
  match s with
  | EmptyString => true
  | String c r => char_eqb c NUL || (isprint c && all_printable r)
  end.

(** The key codes of the first [n] characters of [text]. *)
Definition prefix_keys (text : string) (n : nat) : list Z :=
  map (fun i => code (char_at text i)) (seq 0 n).


(** Some contents for a [TypingResult] variable that was never assigned. *)
Definition stale_result : TypingResult :=
  mkResult 7 (-3) 11 5 2 NaN PInf (Fin 9) "zz".


(** The keystrokes account for the cursor and for the mask: some position
    [hw] at or past the cursor has at least [hw] keystrokes behind it, and
    the mask lies below it. *)
Definition keystrokes_cover (s : Session) : Prop :=
  exists hw : nat,
    (pos s <= hw)%nat
    /\ Z.of_nat hw <= totalKeystrokes s
    /\ forall i, flag_at (mistakeFlags s) i = true -> (i < hw)%nat.


(* ===================================================================== *)
(** ** Sampling the words of a text *)
(* ===================================================================== *)

Definition MAX_WORDS : nat := 1000.

(** [strcat(dest, src)] on the contents of [dest]. *)
Definition strcat (dest src : string) : string := (cstr dest ++ cstr src)%string.

(** [wordList[i]], for an index below [wordCount]. *)
Definition word_at (wordList : list string) (i : nat) : string :=
  default EmptyString (wordList !! i).

(** The [do ... while] that draws an index: [rands] are the values the
    coming calls of [rand()] return, none of them negative; [retry] is the
    test [numTestWords < wordCount] (or [wordsPerRound < wordCount]). When
    the values run out the loop has not ended. *)
Fixpoint draw_index (wordCount : nat) (retry : bool) (usedIndexes : list bool)
    (rands : list Z) : option (nat * list Z) :=
  match rands with
  | [] => None
  | r :: rest =>
      let randomIndex := Z.to_nat (r mod Z.of_nat wordCount) in
      if flag_at usedIndexes randomIndex && retry
      then draw_index wordCount retry usedIndexes rest
      else Some (randomIndex, rest)
  end.

(** The [for] loop that builds the text, with [iters] iterations left
    from the counter [i] on. *)
Fixpoint sample_loop (wordList : list string) (numWords iters i : nat)
    (text : string) (usedIndexes : list bool) (rands : list Z)
    : option (string * list Z) :=
  match iters with
  | O => Some (text, rands)
  | S iters' =>
      match draw_index (length wordList) (numWords <? length wordList)%nat
                       usedIndexes rands with
      | None => None
      | Some (randomIndex, rands') =>
          let text := strcat text (word_at wordList randomIndex) in
          let text := if (i <? numWords - 1)%nat then strcat text " " else text in
          sample_loop wordList numWords iters' (S i) text
                      (<[randomIndex := true]> usedIndexes) rands'
      end
  end.

(** The text [rawSpeedMode] builds for [numWords = numTestWords] and
    [enduranceMode] for [numWords = wordsPerRound = 10]: the loop runs
    while [i < numWords && i < wordCount]. *)
Definition sampleWords (wordList : list string) (numWords : nat) (rands : list Z)
    : option (string * list Z) :=
  sample_loop wordList numWords (Nat.min numWords (length wordList)) 0
              EmptyString (replicate MAX_WORDS false) rands.

(** The words at [idxs] put one after the other, the word with counter
    [i] followed by a space when [i < numWords - 1]. *)
Fixpoint join_words (wordList : list string) (numWords i : nat) (idxs : list nat)
    : string :=
  match idxs with
  | [] => EmptyString
  | j :: rest =>
      (cstr (word_at wordList j)
       ++ (if (i <? numWords - 1)%nat then " " else "")
       ++ join_words wordList numWords (S i) rest)%string
  end.


(** The sum of an [int] field over the results. *)
Definition sum_field (f : TypingResult -> Z) (results : list TypingResult) : Z :=
  fold_right (fun r acc => f r + acc) 0 results.

(* ===================================================================== *)
(** ** Reading the word list: [loadWordsFromFile] *)
(* ===================================================================== *)

(** The reading loop on the words [fscanf("%19s")] delivers one after the
    other. Each word is stored at [wordList[wordCount]] before the test
    [wordCount < MAX_WORDS] is made, so with [MAX_WORDS] words read a
    further word is stored at [wordList[MAX_WORDS]], outside the array; in
    [AppState] the field behind the array is [wordCount] itself. What the
    loop does from there on depends on the layout of the structure and is
    not modelled: the result is [None]. Otherwise it is the array and the
    count. *)
Fixpoint load_words (tokens : list string) (wordList : list string)
    (wordCount : nat) : option (list string * nat) :=
  match tokens with
  | [] => Some (wordList, wordCount)
  | t :: rest =>
      if (wordCount <? MAX_WORDS)%nat
      then load_words rest (<[wordCount := t]> wordList) (S wordCount)
      else None
  end.

(** [loadWordsFromFile] on a file that could be opened; [wordList] is the
    array as it was, of [MAX_WORDS] elements. *)
Definition loadWordsFromFile (tokens : list string) (wordList : list string)
    : option (list string * nat) :=
  load_words tokens wordList 0.

(** The values of a C [int]. The arithmetic on [int] variables is written
    on [Z]; it is the arithmetic of the program as long as every result
    is one of these values, which the statements about sums require. *)
Definition INT_MIN : Z := -2147483648.

Definition fits_int (z : Z) : bool := (INT_MIN <=? z) && (z <=? INT_MAX).

(** The values an accumulator takes in [acc += f(results[i])] over the
    results. *)
Fixpoint running_sums (f : TypingResult -> Z) (acc : Z) (results : list TypingResult)
    : list Z :=
  match results with
  | [] => []
  | r :: rest => (acc + f r) :: running_sums f (acc + f r) rest
  end.

(** No overflow in [processTypingResults]: the running sums of the two
    character counts, the new totals of the profile and its new number of
    tests are values of an [int]. *)
Definition sums_fit (results : list TypingResult) (user : User) : bool :=
  forallb fits_int (running_sums totalChars 0 results)
  && forallb fits_int (running_sums correctChars 0 results)
  && fits_int (totalCharsTyped user + sum_field totalChars results)
  && fits_int (totalCorrectChars user + sum_field correctChars results)
  && fits_int (testsCompleted user + Z.of_nat (length results)).


(** Three profiles for examples of the leaderboard. *)
Definition script_table : list User :=
  [ mkUser "ada" (Fin 50) (Fin 97) 4 20 (Fin 93) 800 744;
    mkUser "bob" (Fin 72) (Fin 91) 9 40 (Fin 88) 1900 1672;
    mkUser "cy" (Fin 61) (Fin 99) 2 0 (Fin 99) 300 297 ].


(** Every best speed in the table is a number. *)
Definition speeds_are_numbers (state : AppState) : Prop :=
  Forall (fun u => is_nan (bestWPM u) = false) (users state).

(* ===================================================================== *)
(** * Properties *)
(* ===================================================================== *)

(** ** Loops and C strings *)

Lemma for_range_S {St : Type} (n : nat) (body : nat -> St -> St) (s : St) :
  for_range (S n) body s = body n (for_range n body s).
Proof.
  unfold for_range. rewrite seq_S, fold_left_app. reflexivity.
Qed.

Lemma for_range_0 {St : Type} (body : nat -> St -> St) (s : St) :
  for_range 0 body s = s.
Proof. reflexivity. Qed.

Lemma char_eqb_eq (a b : ascii) : char_eqb a b = true <-> a = b.
Proof. apply Ascii.eqb_eq. Qed.

Lemma char_eqb_neq (a b : ascii) : char_eqb a b = false <-> a <> b.
Proof. apply Ascii.eqb_neq. Qed.

(** Before [strlen] a C string holds no terminator. *)
Lemma char_at_inside (s : string) (i : nat) :
  (i < strlen s)%nat -> char_at s i <> NUL.
Proof.
  revert i. induction s as [|c r IH]; intros i Hi; simpl in *; [lia|].
  destruct (char_eqb c NUL) eqn:E; [lia|].
  destruct i as [|j]; [now apply char_eqb_neq|].
  apply IH. lia.
Qed.

Lemma char_at_outside (s : string) (i : nat) :
  (strlen s <= i)%nat -> char_at s i = NUL.
Proof.
  revert i. induction s as [|c r IH]; intros i Hi; simpl in *.
  - now destruct i.
  - destruct (char_eqb c NUL) eqn:E.
    + destruct i; [now apply char_eqb_eq|reflexivity].
    + destruct i as [|j]; [lia|]. apply IH. lia.
Qed.

(** ** Arithmetic of [cfloat] *)

Lemma fin_proper (a b : Q) : (a == b)%Q -> fin a = fin b.
Proof. intros H. unfold fin. f_equal. now apply Qred_complete. Qed.

Lemma fin_between (lo hi q : Q) :
  (lo <= q)%Q -> (q <= hi)%Q -> between lo hi (fin q).
Proof. intros H1 H2. unfold fin, between. now rewrite Qred_correct. Qed.

Lemma Fin_fin (q : Q) : Fin (Qred q) = fin q.
Proof. reflexivity. Qed.

(** ** The scorer *)

Lemma count_upto_S (p : nat -> bool) (n : nat) :
  count_upto p (S n) = (count_upto p n + if p n then 1 else 0)%nat.
Proof.
  unfold count_upto. rewrite seq_S, List.filter_app, length_app. simpl.
  now destruct (p n).
Qed.

Lemma count_upto_split (p : nat -> bool) (n : nat) :
  (count_upto p n + count_upto (fun i => negb (p i)) n = n)%nat.
Proof.
  induction n as [|n IH]; [reflexivity|].
  rewrite !count_upto_S. destruct (p n); simpl; lia.
Qed.

Lemma compare_loop (target typed : string) (n : nat) (c m : Z) :
  for_range n (compare_body target typed) (c, m)
  = (c + Z.of_nat (count_upto (agree target typed) n),
     m + Z.of_nat (count_upto (fun i => negb (agree target typed i)) n)).
Proof.
  induction n as [|n IH].
  - rewrite for_range_0. unfold count_upto. simpl. f_equal; lia.
  - rewrite for_range_S, IH, !count_upto_S. unfold compare_body, agree.
    destruct (char_eqb (char_at typed n) (char_at target n)); simpl; f_equal; lia.
Qed.

Lemma accuracy_value (e n : Z) :
  n <> 0 ->
  (let a := fmul (Fin 100) (fsub (Fin 1) (fdiv (of_int e) (of_int n))) in
   if flt a (Fin 0) then Fin 0 else a)
  = fin (Qmax 0 (100 * (1 - inject_Z e / inject_Z n))).
Proof.
  intros Hn. cbv zeta.
  unfold of_int, fdiv. cbn [Qnum inject_Z].
  destruct (n =? 0) eqn:E; [lia|].
  unfold fsub, fneg, fin, fadd, fmul, fin, flt.
  set (y := (100 * Qred (1 + Qred (- Qred (inject_Z e / inject_Z n))))%Q).
  set (x := (100 * (1 - inject_Z e / inject_Z n))%Q).
  assert (Hyx : (y == x)%Q).
  { unfold y, x. rewrite !Qred_correct. reflexivity. }
  assert (Hred : Qred y = Qred x) by now apply Qred_complete.
  unfold Qmax, GenericMinMax.gmax.
  destruct (Qcompare_spec (Qred y) 0) as [Ha|Ha|Ha];
    rewrite Qred_correct, Hyx in Ha;
    destruct (Qcompare_spec 0 x) as [Hx|Hx|Hx].
  - f_equal. apply Qred_complete. now rewrite Hyx.
  - exfalso. rewrite Ha in Hx. now apply Qlt_irrefl in Hx.
  - exfalso. rewrite Ha in Hx. now apply Qlt_irrefl in Hx.
  - exfalso. rewrite <- Hx in Ha. now apply Qlt_irrefl in Ha.
  - exfalso. apply (Qlt_irrefl 0). now apply Qlt_trans with x.
  - reflexivity.
  - exfalso. rewrite <- Hx in Ha. now apply Qlt_irrefl in Ha.
  - now f_equal.
  - exfalso. apply (Qlt_irrefl 0). now apply Qlt_trans with x.
Qed.

(** What [calculateAccuracy] computes, field by field. *)
Lemma calculateAccuracy_fields (target typed : string) :
  let n := strlen target in
  let m := strlen typed in
  let mistypedChars := Z.of_nat (count_upto (fun i => negb (agree target typed i)) (min n m)) in
  let missedChars := Z.of_nat (n - m) in
  let extraChars := Z.of_nat (m - n) in
  calculateAccuracy target typed
  = mkScored (accuracy_formula (Z.of_nat n) (mistypedChars + missedChars + extraChars))
             (Z.of_nat (count_upto (agree target typed) (min n m)))
             mistypedChars missedChars extraChars.
Proof.
  intros n m mistypedChars missedChars extraChars.
  unfold calculateAccuracy. fold n m.
  assert (Hmin : Z.to_nat (if Z.of_nat n <? Z.of_nat m then Z.of_nat n else Z.of_nat m)
                 = min n m).
  { destruct (Z.ltb_spec (Z.of_nat n) (Z.of_nat m)); lia. }
  rewrite Hmin, compare_loop. cbn [Z.add].
  assert (Hmiss : (if Z.of_nat m <? Z.of_nat n then Z.of_nat n - Z.of_nat m else 0)
                  = missedChars).
  { unfold missedChars. destruct (Z.ltb_spec (Z.of_nat m) (Z.of_nat n)); lia. }
  assert (Hextra : (if Z.of_nat m >? Z.of_nat n then Z.of_nat m - Z.of_nat n else 0)
                   = extraChars).
  { unfold extraChars. rewrite Z.gtb_ltb.
    destruct (Z.ltb_spec (Z.of_nat n) (Z.of_nat m)); lia. }
  rewrite Hmiss, Hextra. fold mistypedChars.
  f_equal. unfold accuracy_formula.
  destruct (Z.eqb_spec (Z.of_nat n) 0) as [E|E]; [reflexivity|].
  now apply accuracy_value.
Qed.

Lemma accuracy_formula_range (n e : Z) :
  0 <= n -> 0 <= e -> between 0 100 (accuracy_formula n e).
Proof.
  intros Hn He. unfold accuracy_formula.
  destruct (Z.eqb_spec n 0) as [E|E].
  - simpl. split; [apply Qle_refl | discriminate].
  - apply fin_between.
    + apply Q.le_max_l.
    + apply Q.max_lub; [discriminate|].
      assert (Hq : (0 <= inject_Z e / inject_Z n)%Q).
      { apply Qle_shift_div_l.
        - change 0%Q with (inject_Z 0). rewrite <- Zlt_Qlt. lia.
        - rewrite Qmult_0_l. change 0%Q with (inject_Z 0). rewrite <- Zle_Qle. lia. }
      apply Qle_trans with (100 * (1 - 0))%Q; [|discriminate].
      apply Qmult_le_l; [reflexivity|].
      apply Qplus_le_r. apply Qopp_le_compat. exact Hq.
Qed.

(** C3. For every target and typed string the scorer counts a position
    below the shorter length as correct when the two characters are equal
    and as mistyped otherwise, counts the shortfall of the typed string as
    missed and its excess as extra, and returns
    [100 * (1 - (mistyped + missed + extra) / len(target))] clamped below
    at 0, or 0 for an empty target. On ("hello","hello") it returns 100
    with no error, on ("hello","") and on an empty target it returns 0, and
    on ("cat","cats") it counts one extra character and returns
    [100 * (1 - 1/3)]. *)
Theorem calculateAccuracy_spec :
  (forall target typed : string,
      let n := strlen target in
      let m := strlen typed in
      let r := calculateAccuracy target typed in
      sc_correct r = Z.of_nat (count_upto (agree target typed) (min n m))
      /\ sc_mistyped r
         = Z.of_nat (count_upto (fun i => negb (agree target typed i)) (min n m))
      /\ sc_correct r + sc_mistyped r = Z.of_nat (min n m)
      /\ sc_missed r = Z.of_nat (n - m)
      /\ sc_extra r = Z.of_nat (m - n)
      /\ sc_accuracy r
         = if (n =? 0)%nat then Fin 0
           else fin (Qmax 0 (100 * (1 - inject_Z (sc_mistyped r + sc_missed r + sc_extra r)
                                        / inject_Z (Z.of_nat n)))))
  /\ calculateAccuracy "hello" "hello" = mkScored (Fin 100) 5 0 0 0
  /\ sc_accuracy (calculateAccuracy "hello" "") = Fin 0
  /\ (forall typed : string, sc_accuracy (calculateAccuracy "" typed) = Fin 0)
  /\ sc_extra (calculateAccuracy "cat" "cats") = 1
  /\ sc_correct (calculateAccuracy "cat" "cats") = 3
  /\ sc_accuracy (calculateAccuracy "cat" "cats") = fin (100 * (1 - 1 / 3)).
Proof.
  split; [|repeat split; try reflexivity].
  - intros target typed n m r. subst r.
    rewrite (calculateAccuracy_fields target typed). fold n m. cbn [sc_correct
      sc_mistyped sc_missed sc_extra sc_accuracy].
    repeat split; try reflexivity.
    + pose proof (count_upto_split (agree target typed) (min n m)). lia.
    + unfold accuracy_formula.
      destruct (Nat.eqb_spec n 0) as [E|E]; destruct (Z.eqb_spec (Z.of_nat n) 0); 
        try lia; reflexivity.
  - intros typed. rewrite (calculateAccuracy_fields "" typed). reflexivity.
Qed.

(** C7. For every target and typed string the accuracy returned by the
    scorer lies between 0 and 100. *)
Theorem calculateAccuracy_range (target typed : string) :
  between 0 100 (sc_accuracy (calculateAccuracy target typed)).
Proof.
  rewrite (calculateAccuracy_fields target typed). cbn [sc_accuracy].
  apply accuracy_formula_range; lia.
Qed.

(** ** Arrays *)

Lemma typed_at_insert (buf : list ascii) (i j : nat) (c : ascii) :
  (i < length buf)%nat ->
  typed_at (<[i := c]> buf) j = if Nat.eqb j i then c else typed_at buf j.
Proof.
  intros Hi. unfold typed_at. destruct (Nat.eqb_spec j i) as [->|Hne].
  - now rewrite list_lookup_insert_eq.
  - now rewrite list_lookup_insert_ne by congruence.
Qed.

Lemma flag_at_insert (flags : list bool) (i j : nat) (b : bool) :
  (i < length flags)%nat ->
  flag_at (<[i := b]> flags) j = if Nat.eqb j i then b else flag_at flags j.
Proof.
  intros Hi. unfold flag_at. destruct (Nat.eqb_spec j i) as [->|Hne].
  - now rewrite list_lookup_insert_eq.
  - now rewrite list_lookup_insert_ne by congruence.
Qed.

Lemma typed_at_replicate (n i : nat) : typed_at (replicate n NUL) i = NUL.
Proof.
  unfold typed_at. destruct (replicate n NUL !! i) as [c|] eqn:E; [|reflexivity].
  apply lookup_replicate in E. now destruct E.
Qed.

Lemma flag_at_replicate (n i : nat) : flag_at (replicate n false) i = false.
Proof.
  unfold flag_at. destruct (replicate n false !! i) as [c|] eqn:E; [|reflexivity].
  apply lookup_replicate in E. now destruct E.
Qed.

Lemma count_true_replicate (n : nat) : count_true (replicate n false) = 0%nat.
Proof. induction n as [|n IH]; [reflexivity|exact IH]. Qed.

Lemma count_true_insert (flags : list bool) (i : nat) :
  flag_at flags i = false -> (i < length flags)%nat ->
  count_true (<[i := true]> flags) = S (count_true flags).
Proof.
  revert i. induction flags as [|b r IH]; intros i Hf Hi; simpl in Hi; [lia|].
  destruct i as [|j].
  - unfold flag_at in Hf. simpl in Hf. subst b. reflexivity.
  - assert (Hr : count_true (<[j := true]> r) = S (count_true r)).
    { apply IH; [exact Hf | lia]. }
    unfold count_true in *. simpl. destruct b; simpl; now rewrite Hr.
Qed.

Lemma buf_strlen_spec (buf : list ascii) (p : nat) :
  (p < length buf)%nat ->
  (forall i, (i < p)%nat -> typed_at buf i <> NUL) ->
  typed_at buf p = NUL ->
  buf_strlen buf = p.
Proof.
  revert p. induction buf as [|c r IH]; intros p Hp Hhead Hend; simpl in Hp; [lia|].
  simpl. destruct p as [|q].
  - unfold typed_at in Hend. simpl in Hend. subst c. reflexivity.
  - destruct (char_eqb c NUL) eqn:E.
    + apply char_eqb_eq in E. exfalso. apply (Hhead 0%nat); [lia | exact E].
    + f_equal. apply IH; [lia | | exact Hend].
      intros i Hi. apply (Hhead (S i)). lia.
Qed.

(** ** The re-render loop *)

(** Positions that match or are already in the mask are left alone. *)
Lemma render_prefix_settled (text : string) (typed : list ascii) (p : nat)
    (incorrect : Z) (flags : list bool) :
  (forall i, (i < p)%nat ->
     (i < strlen text)%nat
     /\ (typed_at typed i = char_at text i \/ flag_at flags i = true)) ->
  for_range p (render_body text typed) (incorrect, flags) = (incorrect, flags).
Proof.
  induction p as [|p IH]; intros H; [reflexivity|].
  rewrite for_range_S, IH by (intros i Hi; apply H; lia).
  destruct (H p) as [Hlt Hok]; [lia|].
  unfold render_body. apply Nat.ltb_lt in Hlt. rewrite Hlt.
  destruct (char_eqb (typed_at typed p) (char_at text p)) eqn:E; [reflexivity|].
  destruct Hok as [Hok|Hok].
  - apply char_eqb_neq in E. contradiction.
  - now rewrite Hok.
Qed.

Lemma render_last (text : string) (typed : list ascii) (p : nat)
    (incorrect : Z) (flags : list bool) :
  (p < strlen text)%nat ->
  (forall i, (i < p)%nat ->
     typed_at typed i = char_at text i \/ flag_at flags i = true) ->
  render text typed p (incorrect, flags)
  = if char_eqb (typed_at typed p) (char_at text p) || flag_at flags p
    then (incorrect, flags)
    else (incorrect + 1, <[p := true]> flags).
Proof.
  intros Hp H. unfold render. rewrite for_range_S, render_prefix_settled.
  - unfold render_body. apply Nat.ltb_lt in Hp. rewrite Hp.
    destruct (char_eqb (typed_at typed p) (char_at text p)); [reflexivity|].
    now destruct (flag_at flags p).
  - intros i Hi. split; [lia | now apply H].
Qed.

(** ** One key *)

Lemma isprint_not_backspace (ch : ascii) : isprint ch = true -> is_backspace ch = false.
Proof.
  unfold isprint, is_backspace. intros H.
  apply andb_true_iff in H as [H1 H2].
  apply Z.leb_le in H1. apply Z.leb_le in H2.
  apply orb_false_iff. split; apply Z.eqb_neq; lia.
Qed.

Lemma isprint_not_NUL (ch : ascii) : isprint ch = true -> ch <> NUL.
Proof. intros H ->. discriminate H. Qed.

Lemma loop_cond_true (text : string) (s : Session) :
  loop_cond text s = true <-> testFinished s = false /\ (pos s < strlen text)%nat.
Proof.
  unfold loop_cond. rewrite andb_true_iff, negb_true_iff, Nat.ltb_lt. tauto.
Qed.

Section OneKey.

Variable text : string.
Variable s : Session.
Hypothesis Hinv : session_inv text s.

Lemma settled_below (typed : list ascii) (p : nat) :
  (p <= pos s)%nat ->
  (forall i, (i < p)%nat -> typed_at typed i = typed_at (typedText s) i) ->
  forall i, (i < p)%nat ->
    typed_at typed i = char_at text i \/ flag_at (mistakeFlags s) i = true.
Proof.
  intros Hp Hsame i Hi. rewrite (Hsame i Hi).
  destruct (ascii_dec (typed_at (typedText s) i) (char_at text i)) as [E|E];
    [now left|right].
  apply (inv_flagged _ _ Hinv); [lia | exact E].
Qed.

(** A backspace with the cursor after position [p]: the terminator written
    at [p] differs from the target character there. *)
Lemma on_key_backspace (ch : ascii) :
  is_backspace ch = true -> (0 < pos s)%nat ->
  let p := (pos s - 1)%nat in
  on_key text s ch
  = mkSession (<[p := NUL]> (typedText s))
              (if flag_at (mistakeFlags s) p then mistakeFlags s
               else <[p := true]> (mistakeFlags s))
              p (totalKeystrokes s)
              (if flag_at (mistakeFlags s) p then incorrectKeystrokes s
               else incorrectKeystrokes s + 1)
              (testFinished s).
Proof.
  intros Hbs Hpos p. unfold on_key. rewrite Hbs.
  apply Nat.ltb_lt in Hpos as Hpos'. rewrite Hpos'. cbn [andb]. fold p.
  pose proof (inv_typed_len _ _ Hinv) as Hlen.
  pose proof (inv_pos_text _ _ Hinv) as Hpt.
  pose proof (inv_pos_buf _ _ Hinv) as Hpb. unfold BUFSIZE in Hlen.
  rewrite render_last.
  - rewrite typed_at_insert, Nat.eqb_refl by lia.
    assert (E : char_eqb NUL (char_at text p) = false).
    { apply char_eqb_neq. intros E. symmetry in E. revert E.
      apply char_at_inside. lia. }
    rewrite E. cbn [orb]. now destruct (flag_at (mistakeFlags s) p).
  - lia.
  - apply settled_below; [lia|]. intros i Hi.
    rewrite typed_at_insert by lia.
    destruct (Nat.eqb_spec i p); [lia | reflexivity].
Qed.

(** A printable character typed at the cursor. *)
Lemma on_key_print (ch : ascii) :
  loop_cond text s = true -> isprint ch = true -> (pos s < 999)%nat ->
  let p := pos s in
  let fresh := negb (char_eqb ch (char_at text p) || flag_at (mistakeFlags s) p) in
  on_key text s ch
  = mkSession (<[S p := NUL]> (<[p := ch]> (typedText s)))
              (if fresh then <[p := true]> (mistakeFlags s) else mistakeFlags s)
              (S p) (totalKeystrokes s + 1)
              (if fresh then incorrectKeystrokes s + 1 else incorrectKeystrokes s)
              (if (strlen text <=? S p)%nat then true else testFinished s).
Proof.
  intros Hloop Hpr Hpos p fresh. unfold on_key.
  rewrite (isprint_not_backspace _ Hpr), Hpr.
  apply Nat.ltb_lt in Hpos as Hpos'. rewrite Hpos'. cbn [andb]. fold p.
  apply loop_cond_true in Hloop as [_ Hlt].
  pose proof (inv_typed_len _ _ Hinv) as Hlen. unfold BUFSIZE in Hlen.
  rewrite render_last.
  - rewrite typed_at_insert by (rewrite length_insert; lia).
    destruct (Nat.eqb_spec p (S p)); [lia|].
    rewrite typed_at_insert, Nat.eqb_refl by (fold p in Hpos; lia).
    subst fresh.
    now destruct (char_eqb ch (char_at text p) || flag_at (mistakeFlags s) p).
  - exact Hlt.
  - apply settled_below; [subst p; lia|]. intros i Hi.
    rewrite typed_at_insert by (rewrite length_insert; lia).
    destruct (Nat.eqb_spec i (S p)); [lia|].
    rewrite typed_at_insert by (fold p in Hpos; lia).
    destruct (Nat.eqb_spec i p); [lia | reflexivity].
Qed.

(** Any other key, a backspace at the start of the line included, changes
    nothing. *)
Lemma on_key_ignored (ch : ascii) :
  is_backspace ch && (0 <? pos s)%nat = false ->
  isprint ch && (pos s <? 999)%nat = false ->
  on_key text s ch = s.
Proof. intros H1 H2. unfold on_key. now rewrite H1, H2. Qed.

End OneKey.

(** ** The invariant of the input loop *)

Lemma init_session_inv (text : string) : session_inv text init_session.
Proof.
  constructor; cbn [init_session typedText mistakeFlags pos incorrectKeystrokes
                    testFinished].
  - apply length_replicate.
  - apply length_replicate.
  - lia.
  - lia.
  - intros i Hi. lia.
  - intros i _. apply typed_at_replicate.
  - intros i Hi. lia.
  - now rewrite count_true_replicate.
  - discriminate.
Qed.

Lemma on_key_inv (text : string) (s : Session) (ch : ascii) :
  session_inv text s -> loop_cond text s = true ->
  session_inv text (on_key text s ch).
Proof.
  intros Hinv Hloop.
  pose proof Hinv as [Hlt Hlf Hpt Hpb Hhead Htail Hflag Hcnt Hfin].
  unfold BUFSIZE in Hlt, Hlf.
  apply loop_cond_true in Hloop as Hloop'. destruct Hloop' as [Hnf Hlt'].
  destruct (is_backspace ch && (0 <? pos s)%nat) eqn:Hbs.
  - (* backspace *)
    apply andb_true_iff in Hbs as [Hbs Hpos]. apply Nat.ltb_lt in Hpos.
    rewrite (on_key_backspace text s Hinv ch Hbs Hpos). cbv zeta.
    set (p := (pos s - 1)%nat).
    constructor; cbn [typedText mistakeFlags pos incorrectKeystrokes testFinished
                      totalKeystrokes]; unfold BUFSIZE; try (subst p; lia).
    + now rewrite length_insert.
    + destruct (flag_at (mistakeFlags s) p); [|rewrite length_insert]; exact Hlf.
    + intros i Hi. rewrite typed_at_insert by (subst p; lia).
      destruct (Nat.eqb_spec i p); [lia|]. apply Hhead. subst p; lia.
    + intros i Hi. rewrite typed_at_insert by (subst p; lia).
      destruct (Nat.eqb_spec i p); [reflexivity|]. apply Htail. subst p; lia.
    + intros i Hi. rewrite typed_at_insert by (subst p; lia).
      destruct (Nat.eqb_spec i p); [lia|]. intros Hne.
      assert (Hold : flag_at (mistakeFlags s) i = true)
        by (apply Hflag; [subst p; lia | exact Hne]).
      destruct (flag_at (mistakeFlags s) p); [exact Hold|].
      rewrite flag_at_insert by (subst p; lia).
      destruct (Nat.eqb_spec i p); [lia | exact Hold].
    + destruct (flag_at (mistakeFlags s) p) eqn:Hf; [exact Hcnt|].
      rewrite count_true_insert by (try exact Hf; subst p; lia). lia.
    + congruence.
  - destruct (isprint ch && (pos s <? 999)%nat) eqn:Hpr.
    + (* printable character *)
      apply andb_true_iff in Hpr as [Hpr Hpos]. apply Nat.ltb_lt in Hpos.
      rewrite (on_key_print text s Hinv ch Hloop Hpr Hpos). cbv zeta.
      set (p := pos s) in *.
      set (fresh := negb (char_eqb ch (char_at text p) || flag_at (mistakeFlags s) p)).
      constructor; cbn [typedText mistakeFlags pos incorrectKeystrokes testFinished
                        totalKeystrokes]; unfold BUFSIZE; try lia.
      * now rewrite !length_insert.
      * destruct fresh; [rewrite length_insert|]; exact Hlf.
      * intros i Hi. rewrite typed_at_insert by (rewrite length_insert; lia).
        destruct (Nat.eqb_spec i (S p)); [lia|].
        rewrite typed_at_insert by lia.
        destruct (Nat.eqb_spec i p); [now apply isprint_not_NUL|].
        apply Hhead. lia.
      * intros i Hi. rewrite typed_at_insert by (rewrite length_insert; lia).
        destruct (Nat.eqb_spec i (S p)); [reflexivity|].
        rewrite typed_at_insert by lia.
        destruct (Nat.eqb_spec i p); [lia|]. apply Htail. lia.
      * intros i Hi. rewrite typed_at_insert by (rewrite length_insert; lia).
        destruct (Nat.eqb_spec i (S p)); [lia|].
        rewrite typed_at_insert by lia.
        destruct (Nat.eqb_spec i p) as [->|Hne]; intros Hdiff.
        -- subst fresh. apply char_eqb_neq in Hdiff. rewrite Hdiff. cbn [orb].
           destruct (flag_at (mistakeFlags s) p) eqn:Hf; cbn [negb]; [exact Hf|].
           now rewrite flag_at_insert, Nat.eqb_refl by lia.
        -- assert (Hold : flag_at (mistakeFlags s) i = true)
             by (apply Hflag; [lia | exact Hdiff]).
           destruct fresh; [|exact Hold].
           rewrite flag_at_insert by lia.
           destruct (Nat.eqb_spec i p); [lia | exact Hold].
      * subst fresh.
        destruct (char_eqb ch (char_at text p)); cbn [orb negb]; [exact Hcnt|].
        destruct (flag_at (mistakeFlags s) p) eqn:Hf; cbn [negb]; [exact Hcnt|].
        rewrite count_true_insert by (try exact Hf; lia). lia.
      * destruct (Nat.leb_spec (strlen text) (S p)); [lia | congruence].
    + now rewrite on_key_ignored.
Qed.

Lemma run_keys_app (text : string) (keys1 keys2 : list Z) (s : Session) :
  run_keys text (keys1 ++ keys2) s
  = match run_keys text keys1 s with
    | Some s1 => run_keys text keys2 s1
    | None => None
    end.
Proof.
  revert s. induction keys1 as [|k r IH]; intros s; [reflexivity|].
  cbn [app run_keys].
  destruct (loop_cond text s && negb (is_esc (to_char k))); [apply IH | reflexivity].
Qed.

Lemma run_keys_inv (text : string) (keys : list Z) (s s' : Session) :
  session_inv text s -> run_keys text keys s = Some s' -> session_inv text s'.
Proof.
  revert s. induction keys as [|k r IH]; intros s Hinv Hrun; cbn [run_keys] in Hrun.
  - now inversion Hrun; subst.
  - destruct (loop_cond text s) eqn:Hloop; [|discriminate].
    destruct (negb (is_esc (to_char k))); [|discriminate].
    cbn [andb] in Hrun. eapply IH; [|exact Hrun]. now apply on_key_inv.
Qed.

(** Every state the loop passes through satisfies the invariant. *)
Lemma reachable_inv (text : string) (keys : list Z) (s : Session) :
  run_keys text keys init_session = Some s -> session_inv text s.
Proof. apply run_keys_inv, init_session_inv. Qed.

(** The loop and [run_keys] agree. *)
Lemma typing_loop_finished (text : string) (keys rest : list Z) (s s' : Session) :
  typing_loop text keys s = Finished s' rest ->
  exists used, keys = used ++ rest
               /\ run_keys text used s = Some s'
               /\ loop_cond text s' = false.
Proof.
  revert s. induction keys as [|k r IH]; intros s H; cbn [typing_loop] in H.
  - destruct (loop_cond text s) eqn:Hloop; [discriminate|].
    inversion H; subst. now exists [].
  - destruct (loop_cond text s) eqn:Hloop.
    + destruct (is_esc (to_char k)) eqn:Hesc; [discriminate|].
      destruct (IH _ H) as (used & -> & Hrun & Hstop).
      exists (k :: used). repeat split; [|exact Hstop].
      cbn [run_keys]. now rewrite Hloop, Hesc.
    + inversion H; subst. now exists [].
Qed.

Lemma typing_loop_cancelled (text : string) (keys rest : list Z) (s : Session) :
  typing_loop text keys s = Cancelled rest ->
  exists used k s', keys = used ++ k :: rest
                    /\ run_keys text used s = Some s'
                    /\ loop_cond text s' = true
                    /\ is_esc (to_char k) = true.
Proof.
  revert s. induction keys as [|k r IH]; intros s H; cbn [typing_loop] in H.
  - destruct (loop_cond text s); discriminate.
  - destruct (loop_cond text s) eqn:Hloop; [|discriminate].
    destruct (is_esc (to_char k)) eqn:Hesc.
    + inversion H; subst. now exists [], k, s.
    + destruct (IH _ H) as (used & k' & s' & -> & Hrun & Hgo & Hk).
      exists (k :: used), k', s'. repeat split; try assumption.
      cbn [run_keys]. now rewrite Hloop, Hesc.
Qed.

(** ** Counters and mask never go back *)

Lemma flag_at_insert_true (flags : list bool) (i j : nat) :
  flag_at flags j = true -> flag_at (<[i := true]> flags) j = true.
Proof.
  intros H. destruct (Nat.lt_ge_cases i (length flags)) as [Hi|Hi].
  - rewrite flag_at_insert by exact Hi. now destruct (Nat.eqb j i).
  - now rewrite list_insert_ge.
Qed.

Lemma grows_refl (st : Z * list bool) : grows st st.
Proof. split; [lia | auto]. Qed.

Lemma grows_trans (st1 st2 st3 : Z * list bool) :
  grows st1 st2 -> grows st2 st3 -> grows st1 st3.
Proof. intros [H1 H2] [H3 H4]. split; [lia | auto]. Qed.

Lemma render_body_grows (text : string) (typed : list ascii) (i : nat)
    (st : Z * list bool) :
  grows st (render_body text typed i st).
Proof.
  destruct st as [incorrect flags]. unfold render_body.
  destruct (i <? strlen text)%nat.
  - destruct (char_eqb (typed_at typed i) (char_at text i)); [apply grows_refl|].
    destruct (flag_at flags i); [apply grows_refl|].
    split; cbn [fst snd]; [lia|]. intros j. apply flag_at_insert_true.
  - split; cbn [fst snd]; [lia | auto].
Qed.

Lemma render_grows (text : string) (typed : list ascii) (p : nat)
    (st : Z * list bool) :
  grows st (render text typed p st).
Proof.
  unfold render. generalize (S p) as n. induction n as [|n IH].
  - apply grows_refl.
  - rewrite for_range_S. eapply grows_trans; [exact IH | apply render_body_grows].
Qed.

Lemma on_key_grows (text : string) (s : Session) (ch : ascii) :
  let s' := on_key text s ch in
  totalKeystrokes s <= totalKeystrokes s' <= totalKeystrokes s + 1
  /\ (is_backspace ch = true -> totalKeystrokes s' = totalKeystrokes s)
  /\ grows (incorrectKeystrokes s, mistakeFlags s)
           (incorrectKeystrokes s', mistakeFlags s').
Proof.
  cbv zeta. unfold on_key.
  destruct (is_backspace ch && (0 <? pos s)%nat) eqn:Hbs.
  - pose proof (render_grows text (<[(pos s - 1)%nat := NUL]> (typedText s))
                  (pos s - 1) (incorrectKeystrokes s, mistakeFlags s)) as H.
    destruct (render _ _ _ _) as [incorrect flags].
    cbn [totalKeystrokes incorrectKeystrokes mistakeFlags].
    repeat split; try lia; apply H.
  - destruct (isprint ch && (pos s <? 999)%nat) eqn:Hpr.
    + pose proof (render_grows text
                    (<[S (pos s) := NUL]> (<[pos s := ch]> (typedText s)))
                    (pos s) (incorrectKeystrokes s, mistakeFlags s)) as H.
      destruct (render _ _ _ _) as [incorrect flags].
      cbn [totalKeystrokes incorrectKeystrokes mistakeFlags].
      apply andb_true_iff in Hpr as [Hpr _].
      pose proof (isprint_not_backspace _ Hpr).
      repeat split; try lia; try congruence; apply H.
    + repeat split; try lia. auto.
Qed.

Lemma run_keys_grows (text : string) (keys : list Z) (s s' : Session) :
  run_keys text keys s = Some s' ->
  totalKeystrokes s <= totalKeystrokes s' <= totalKeystrokes s + Z.of_nat (length keys)
  /\ grows (incorrectKeystrokes s, mistakeFlags s)
           (incorrectKeystrokes s', mistakeFlags s').
Proof.
  revert s. induction keys as [|k r IH]; intros s Hrun; cbn [run_keys] in Hrun.
  - inversion Hrun; subst. split; [simpl; lia | apply grows_refl].
  - destruct (loop_cond text s && negb (is_esc (to_char k))); [|discriminate].
    destruct (IH _ Hrun) as [Ht Hg].
    destruct (on_key_grows text s (to_char k)) as (Ht' & _ & Hg').
    split; [cbn [length]; lia | eapply grows_trans; eassumption].
Qed.

(** The counters stay within the range of [int] in any session of fewer
    than [2^31] keys. *)
Lemma counters_bounded (text : string) (keys : list Z) (s : Session) :
  run_keys text keys init_session = Some s ->
  0 <= totalKeystrokes s <= Z.of_nat (length keys)
  /\ 0 <= incorrectKeystrokes s <= 1000.
Proof.
  intros Hrun. pose proof (run_keys_grows _ _ _ _ Hrun) as [Ht _].
  pose proof (reachable_inv _ _ _ Hrun) as Hinv.
  split; [exact Ht|].
  rewrite (inv_counted _ _ Hinv).
  pose proof (inv_flags_len _ _ Hinv) as Hlen. unfold BUFSIZE in Hlen.
  unfold count_true.
  pose proof (List.filter_length_le (fun b : bool => b) (mistakeFlags s)). lia.
Qed.

(** ** The claims about the input loop *)

(** C8. During one session the mistake mask only grows: a position that
    is in the mask stays in it through every later key, printable or
    backspace, also when the character there is corrected. *)
Theorem mistake_mask_only_grows (text : string) (keys : list Z) (s s' : Session)
    (i : nat) :
  run_keys text keys s = Some s' ->
  flag_at (mistakeFlags s) i = true ->
  flag_at (mistakeFlags s') i = true.
Proof.
  intros Hrun Hi. destruct (run_keys_grows _ _ _ _ Hrun) as [_ [_ Hg]].
  now apply Hg.
Qed.

(** Position 0 of "ab" is typed wrong, erased and typed right: it is
    still in the mask. *)
Lemma mistake_mask_only_grows_witness :
  flag_at (mistakeFlags
             (on_key "ab" (on_key "ab" (on_key "ab" init_session "x") (to_char 8)) "a"))
          0 = true.
Proof.
  apply (mistake_mask_only_grows "ab" [8; 97] (on_key "ab" init_session "x")
           (on_key "ab" (on_key "ab" (on_key "ab" init_session "x") (to_char 8)) "a") 0).
  - reflexivity.
  - reflexivity.
Defined.

(** C9. A backspace with the cursor past the start moves the cursor back
    by one and cuts the typed buffer to that length, leaving the characters
    before it; no key, backspace included, lowers [totalKeystrokes] or
    [incorrectKeystrokes], over one key and over any further run of the
    session. *)
Theorem backspace_keeps_counters (text : string) (keys : list Z) (s : Session)
    (ch : ascii) :
  run_keys text keys init_session = Some s ->
  let s' := on_key text s ch in
  totalKeystrokes s <= totalKeystrokes s'
  /\ incorrectKeystrokes s <= incorrectKeystrokes s'
  /\ (if is_backspace ch
      then totalKeystrokes s' = totalKeystrokes s
      else True)
  /\ (if is_backspace ch && (0 <? pos s)%nat
      then pos s' = (pos s - 1)%nat
           /\ buf_strlen (typedText s') = pos s'
           /\ firstn (pos s') (typedText s') = firstn (pos s') (typedText s)
      else True)
  /\ (forall (more : list Z) (s2 : Session),
         run_keys text more s = Some s2 ->
         totalKeystrokes s <= totalKeystrokes s2
         /\ incorrectKeystrokes s <= incorrectKeystrokes s2).
Proof.
  intros Hrun s'. pose proof (reachable_inv _ _ _ Hrun) as Hinv.
  destruct (on_key_grows text s ch) as (Ht & Hbs & Hinc & _). fold s' in Ht, Hbs, Hinc.
  cbn [fst] in Hinc.
  split; [lia|]. split; [exact Hinc|]. split.
  { destruct (is_backspace ch); [now apply Hbs | exact I]. }
  split.
  - destruct (is_backspace ch && (0 <? pos s)%nat) eqn:E; [|exact I].
    apply andb_true_iff in E as [Hb Hpos]. apply Nat.ltb_lt in Hpos.
    subst s'. rewrite (on_key_backspace text s Hinv ch Hb Hpos). cbv zeta.
    cbn [pos typedText].
    pose proof (inv_typed_len _ _ Hinv) as Hlen. unfold BUFSIZE in Hlen.
    pose proof (inv_pos_buf _ _ Hinv) as Hpb.
    split; [reflexivity|]. split.
    + apply buf_strlen_spec.
      * rewrite length_insert. lia.
      * intros i Hi. rewrite typed_at_insert by lia.
        destruct (Nat.eqb_spec i (pos s - 1)); [lia|].
        apply (inv_typed_head _ _ Hinv). lia.
      * now rewrite typed_at_insert, Nat.eqb_refl by lia.
    + apply take_insert_ge. lia.
  - intros more s2 Hmore.
    destruct (run_keys_grows _ _ _ _ Hmore) as [Ht2 [Hi2 _]].
    cbn [fst] in Hi2. lia.
Qed.

(** "ab": after [a], a backspace. *)
Lemma backspace_keeps_counters_witness :
  let s := on_key "ab" init_session "a" in
  let s' := on_key "ab" s (to_char 8) in
  pos s' = 0%nat /\ buf_strlen (typedText s') = 0%nat
  /\ totalKeystrokes s' = 1 /\ incorrectKeystrokes s <= incorrectKeystrokes s'.
Proof.
  intros s s'.
  pose proof (backspace_keeps_counters "ab" [97] s (to_char 8) eq_refl)
    as (_ & Hinc & Ht & (Hp & Hlen & _) & _).
  split; [exact Hp|]. split; [exact Hlen|]. split; [exact Ht | exact Hinc].
Defined.

(** C10. Throughout a session the cursor stays between 0 and the length of
    the target, the typed buffer is exactly as long as the cursor and so
    never longer than the target, the loop goes on exactly while the cursor
    is short of the target length and ends in [Finished] with the cursor on
    it, and every position the re-render visits lies inside the target: the
    branch for positions at or past the target length is never taken. *)
Theorem cursor_within_target (text : string) (keys : list Z) (s : Session) :
  run_keys text keys init_session = Some s ->
  (0 <= pos s <= strlen text)%nat
  /\ buf_strlen (typedText s) = pos s
  /\ (buf_strlen (typedText s) <= strlen text)%nat
  /\ loop_cond text s = negb (pos s =? strlen text)%nat
  /\ (forall ch : ascii,
         loop_cond text s = true ->
         Forall (fun i => (i < strlen text)%nat) (visited s ch))
  /\ (forall (more rest : list Z) (s' : Session),
         typing_loop text more s = Finished s' rest -> pos s' = strlen text)
  /\ (pos s = strlen text ->
      forall more : list Z, typing_loop text more s = Finished s more).
Proof.
  intros Hrun. pose proof (reachable_inv _ _ _ Hrun) as Hinv.
  pose proof (inv_pos_text _ _ Hinv) as Hpt.
  pose proof (inv_pos_buf _ _ Hinv) as Hpb.
  pose proof (inv_typed_len _ _ Hinv) as Hlen. unfold BUFSIZE in Hlen.
  assert (Hstr : buf_strlen (typedText s) = pos s).
  { apply buf_strlen_spec; [lia | apply (inv_typed_head _ _ Hinv) |].
    apply (inv_typed_tail _ _ Hinv). lia. }
  assert (Hcond : forall t, session_inv text t ->
                            loop_cond text t = negb (pos t =? strlen text)%nat).
  { intros t Ht. unfold loop_cond.
    pose proof (inv_pos_text _ _ Ht). pose proof (inv_finished _ _ Ht) as Hf.
    destruct (testFinished t); cbn [negb andb].
    - rewrite (Hf eq_refl), Nat.eqb_refl. reflexivity.
    - destruct (Nat.ltb_spec (pos t) (strlen text));
        destruct (Nat.eqb_spec (pos t) (strlen text)); try lia; reflexivity. }
  split; [lia|]. split; [exact Hstr|]. split; [lia|].
  split; [now apply Hcond|]. split; [|split].
  - intros ch Hloop. apply loop_cond_true in Hloop as [_ Hlt].
    unfold visited.
    destruct (is_backspace ch && (0 <? pos s)%nat).
    + apply List.Forall_forall. intros i Hi. apply in_seq in Hi. lia.
    + destruct (isprint ch && (pos s <? 999)%nat); [|constructor].
      apply List.Forall_forall. intros i Hi. apply in_seq in Hi. lia.
  - intros more rest s' Hfin.
    destruct (typing_loop_finished _ _ _ _ _ Hfin) as (used & _ & Hused & Hstop).
    pose proof (run_keys_inv _ _ _ _ Hinv Hused) as Hinv'.
    rewrite (Hcond _ Hinv') in Hstop. apply negb_false_iff in Hstop.
    now apply Nat.eqb_eq in Hstop.
  - intros Heq more.
    assert (Hstop : loop_cond text s = false).
    { rewrite (Hcond _ Hinv). apply negb_false_iff. now apply Nat.eqb_eq. }
    destruct more; cbn [typing_loop]; now rewrite Hstop.
Qed.

(** "ab" typed in full: the cursor is on the length of the target and the
    loop has stopped. *)
Lemma cursor_within_target_witness :
  let s := on_key "ab" (on_key "ab" init_session "a") "b" in
  pos s = 2%nat /\ buf_strlen (typedText s) = 2%nat /\ loop_cond "ab" s = false.
Proof.
  intros s.
  pose proof (cursor_within_target "ab" [97; 98] s eq_refl)
    as (_ & Hlen & _ & Hcond & _).
  split; [reflexivity|]. split; [exact Hlen | exact Hcond].
Defined.

(** C6. A backspace that erases position [p] makes the re-render compare
    the terminator at [p] with the target character, which differs; if [p]
    was not in the mistake mask, and so held the right character, the
    backspace adds one to [incorrectKeystrokes] and puts [p] in the mask. *)
Theorem backspace_marks_erased_position (text : string) (keys : list Z)
    (s : Session) (ch : ascii) :
  run_keys text keys init_session = Some s ->
  is_backspace ch = true ->
  (0 < pos s)%nat ->
  flag_at (mistakeFlags s) (pos s - 1) = false ->
  let p := (pos s - 1)%nat in
  let s' := on_key text s ch in
  typed_at (typedText s) p = char_at text p
  /\ typed_at (typedText s') p = NUL
  /\ char_at text p <> NUL
  /\ incorrectKeystrokes s' = incorrectKeystrokes s + 1
  /\ flag_at (mistakeFlags s') p = true
  /\ totalKeystrokes s' = totalKeystrokes s.
Proof.
  intros Hrun Hbs Hpos Hflag p s'.
  pose proof (reachable_inv _ _ _ Hrun) as Hinv.
  pose proof (inv_pos_text _ _ Hinv) as Hpt.
  pose proof (inv_pos_buf _ _ Hinv) as Hpb.
  pose proof (inv_typed_len _ _ Hinv) as Hlt.
  pose proof (inv_flags_len _ _ Hinv) as Hlf. unfold BUFSIZE in Hlt, Hlf.
  subst s'. rewrite (on_key_backspace text s Hinv ch Hbs Hpos). cbv zeta.
  fold p. fold p in Hflag. rewrite Hflag.
  cbn [typedText mistakeFlags incorrectKeystrokes totalKeystrokes].
  split.
  { destruct (ascii_dec (typed_at (typedText s) p) (char_at text p)) as [E|E];
      [exact E|].
    assert (flag_at (mistakeFlags s) p = true)
      by (apply (inv_flagged _ _ Hinv); [subst p; lia | exact E]).
    congruence. }
  split; [now rewrite typed_at_insert, Nat.eqb_refl by (subst p; lia)|].
  split; [apply char_at_inside; subst p; lia|].
  split; [reflexivity|].
  split; [|reflexivity].
  now rewrite flag_at_insert, Nat.eqb_refl by (subst p; lia).
Qed.

(** "ab": [a] is typed right and erased; position 0 enters the mask. *)
Lemma backspace_marks_erased_position_witness :
  let s := on_key "ab" init_session "a" in
  let s' := on_key "ab" s (to_char 8) in
  incorrectKeystrokes s = 0 /\ incorrectKeystrokes s' = 1
  /\ flag_at (mistakeFlags s') 0 = true.
Proof.
  intros s s'.
  pose proof (backspace_marks_erased_position "ab" [97] s (to_char 8)
                eq_refl eq_refl (Nat.lt_0_succ 0) eq_refl)
    as (_ & _ & _ & Hinc & Hflag & _).
  split; [reflexivity|]. split; [exact Hinc | exact Hflag].
Defined.

(** C2, as stated, fails: on "ab" the keys [x], backspace, [y] type a
    wrong character twice at position 0 and [incorrectKeystrokes] is 1
    after the first and still 1 after the second. *)
Lemma every_wrong_key_counted_fails : ~ every_wrong_key_counted.
Proof.
  intros H.
  unfold every_wrong_key_counted in H.
  specialize (H "ab"%string [120; 8]
                (on_key "ab" (on_key "ab" init_session "x") (to_char 8))
                "y"%char eq_refl eq_refl eq_refl).
  cbn [pos] in H.
  assert (Hpos : (0 < 999)%nat) by lia.
  specialize (H Hpos). vm_compute in H.
  assert (Hne : "y"%char <> "a"%char) by discriminate.
  specialize (H Hne). discriminate H.
Qed.

(** C2, amended. [incorrectKeystrokes] is the size of the mistake mask. A
    printable character typed at the cursor adds one to it exactly when the
    character is wrong and the position is not yet in the mask, and then
    puts the position in the mask; a wrong character typed at a position
    already in the mask, as after a backspace, adds nothing. *)
Theorem wrong_key_counted_once (text : string) (keys : list Z) (s : Session)
    (ch : ascii) :
  run_keys text keys init_session = Some s ->
  loop_cond text s = true ->
  isprint ch = true ->
  (pos s < 999)%nat ->
  let p := pos s in
  let s' := on_key text s ch in
  incorrectKeystrokes s = Z.of_nat (count_true (mistakeFlags s))
  /\ incorrectKeystrokes s' = Z.of_nat (count_true (mistakeFlags s'))
  /\ incorrectKeystrokes s'
     = incorrectKeystrokes s
       + (if negb (char_eqb ch (char_at text p)) && negb (flag_at (mistakeFlags s) p)
          then 1 else 0)
  /\ flag_at (mistakeFlags s') p
     = negb (char_eqb ch (char_at text p)) || flag_at (mistakeFlags s) p.
Proof.
  intros Hrun Hloop Hpr Hpos p s'.
  pose proof (reachable_inv _ _ _ Hrun) as Hinv.
  pose proof (on_key_inv text s ch Hinv Hloop) as Hinv'. fold s' in Hinv'.
  pose proof (inv_flags_len _ _ Hinv) as Hlf. unfold BUFSIZE in Hlf.
  split; [apply (inv_counted _ _ Hinv)|].
  split; [apply (inv_counted _ _ Hinv')|].
  subst s'. rewrite (on_key_print text s Hinv ch Hloop Hpr Hpos). cbv zeta.
  fold p. cbn [incorrectKeystrokes mistakeFlags].
  destruct (char_eqb ch (char_at text p)); cbn [orb negb andb].
  - split; [lia | reflexivity].
  - destruct (flag_at (mistakeFlags s) p) eqn:Hf; cbn [negb].
    + split; [lia | exact Hf].
    + split; [reflexivity|].
      now rewrite flag_at_insert, Nat.eqb_refl by (subst p; lia).
Qed.

(** "ab" after [x] and a backspace: a second wrong character at position
    0 leaves the count at 1. *)
Lemma wrong_key_counted_once_witness :
  let s := on_key "ab" (on_key "ab" init_session "x") (to_char 8) in
  incorrectKeystrokes s = 1 /\ incorrectKeystrokes (on_key "ab" s "y") = 1.
Proof.
  intros s.
  assert (Hpos : (pos s < 999)%nat) by (vm_compute; lia).
  pose proof (wrong_key_counted_once "ab" [120; 8] s "y" eq_refl eq_refl eq_refl Hpos)
    as (_ & _ & Hinc & _).
  split; [reflexivity | exact Hinc].
Defined.

(** ** Cancelling a session *)

Lemma loop_cond_init (text : string) :
  loop_cond text init_session = negb (strlen text =? 0)%nat.
Proof.
  unfold loop_cond. cbn [init_session testFinished pos negb andb].
  destruct (strlen text); reflexivity.
Qed.

(** [typingTest] returns 0 only after ESC, and then [*result] is as the
    caller left it; otherwise it returns 1. *)
Lemma typingTest_status (env : Env) (text : string) (result r : TypingResult)
    (status : Z) (w w' : World) :
  typingTest env text result w = Ret (status, r) w' ->
  (status = 0 /\ r = result) \/ status = 1.
Proof.
  unfold typingTest, bind, getch, clock, ret. intros H.
  destruct (stdin w) as [|k0 keys]; [discriminate|]. cbn [stdin clock_calls] in H.
  destruct (typing_loop text keys init_session); inversion H; subst; auto.
Qed.

(** ESC as the first key of a session on a non-empty text. *)
Lemma typingTest_cancel_first (env : Env) (text : string) (result : TypingResult)
    (k0 : Z) (rest : list Z) (n : nat) :
  (strlen text =? 0)%nat = false ->
  typingTest env text result (mkWorld (k0 :: 27 :: rest) n)
  = Ret (0, result) (mkWorld rest (S n)).
Proof.
  intros Hne. unfold typingTest, bind, getch, clock. cbn [stdin clock_calls].
  cbn [typing_loop]. rewrite loop_cond_init, Hne. reflexivity.
Qed.

(** C1, at the failing input. [rawSpeedMode] on the text "ab" with the
    keys: any key to start, ESC, any key at the prompt. [typingTest]
    returns 0 and leaves [result] as it was, and [rawSpeedMode] still folds
    that record into the profile: [testsCompleted] grows by one and the
    character totals by whatever the record held. *)
Theorem rawSpeedMode_cancel_updates_profile (env : Env) (result : TypingResult)
    (u : User) (k0 k1 : Z) :
  rawSpeedMode env true "ab" result (mkState [u] 0) (mkWorld [k0; 27; k1] 0)
  = Ret (mkState [fold_results [result] u] 0) (mkWorld [] 1)
  /\ testsCompleted (fold_results [result] u) = testsCompleted u + 1
  /\ totalCharsTyped (fold_results [result] u) = totalCharsTyped u + totalChars result
  /\ totalCorrectChars (fold_results [result] u)
     = totalCorrectChars u + correctChars result.
Proof.
  split; [|repeat split].
  unfold rawSpeedMode. cbn [negb]. unfold bind at 1.
  rewrite typingTest_cancel_first by reflexivity.
  reflexivity.
Qed.

(** ** The figures of a finished session *)

(** The accuracy of a finished session is guarded: 0 without keystrokes,
    and a number otherwise. *)
Lemma session_accuracy_guarded (env : Env) (text : string) (result : TypingResult)
    (s : Session) (start finish : Z) :
  is_finite (accuracy (session_result env text result s start finish)) = true
  /\ (totalKeystrokes s = 0 ->
      accuracy (session_result env text result s start finish) = Fin 0).
Proof.
  unfold session_result. cbn [accuracy].
  destruct (Z.eqb_spec (totalKeystrokes s) 0) as [E|E]; split; try reflexivity;
    try contradiction.
  unfold fdiv, fmul, of_int, fin. cbn [Qnum inject_Z].
  destruct (Z.eqb_spec (totalKeystrokes s) 0); [contradiction | reflexivity].
Qed.

(** C5, at the failing inputs. When [clock()] returns the same value
    before and after the loop, the divisor [timeTaken / 60] of the WPM is
    zero and nothing guards it: a session on the empty text yields
    [0 / 0], which is NaN, and a session on "a" yields an infinite WPM.
    The accuracy of both sessions is guarded. *)
Theorem typingTest_wpm_unguarded (result : TypingResult) (ticks k0 : Z) :
  let env := mkEnv 1000000 (fun _ => ticks) (fun _ => EmptyString) in
  (exists r : TypingResult,
      typingTest env "" result (mkWorld [k0] 0) = Ret (1, r) (mkWorld [] 2)
      /\ totalChars r = 0 /\ accuracy r = Fin 0 /\ timeTaken r = Fin 0
      /\ wpm r = NaN)
  /\ (exists r : TypingResult,
         typingTest env "a" result (mkWorld [k0; 97] 0) = Ret (1, r) (mkWorld [] 2)
         /\ totalChars r = 1 /\ accuracy r = Fin 100 /\ timeTaken r = Fin 0
         /\ wpm r = PInf).
Proof.
  intros env. subst env. split.
  - eexists. split.
    + unfold typingTest, bind, getch, clock, ret. cbn [stdin clock_calls].
      cbn [typing_loop]. rewrite loop_cond_init. cbn [strlen Nat.eqb negb].
      cbn [stdin clock_calls clock_trace]. reflexivity.
    + unfold session_result.
      cbn [totalChars accuracy timeTaken wpm CLOCKS_PER_SEC].
      rewrite (Z.sub_diag ticks). repeat split; reflexivity.
  - eexists. split.
    + unfold typingTest, bind, getch, clock, ret.
      cbn [stdin clock_calls clock_trace].
      reflexivity.
    + unfold session_result.
      cbn [totalChars accuracy timeTaken wpm CLOCKS_PER_SEC].
      rewrite (Z.sub_diag ticks). repeat split; reflexivity.
Qed.

(** ** The endurance loop *)

Lemma typingTest_consumes (env : Env) (text : string) (result : TypingResult)
    (a : Z * TypingResult) (w w' : World) :
  typingTest env text result w = Ret a w' ->
  (length (stdin w') < length (stdin w))%nat.
Proof.
  unfold typingTest, bind, getch, clock, ret. intros H.
  destruct (stdin w) as [|k0 keys]; [discriminate|]. cbn [stdin clock_calls] in H.
  destruct (typing_loop text keys init_session) as [rest|s rest|] eqn:E;
    inversion H; subst; cbn [stdin length].
  - destruct (typing_loop_cancelled _ _ _ _ E) as (used & k & s' & -> & _).
    rewrite length_app. cbn [length]. lia.
  - destruct (typing_loop_finished _ _ _ _ _ E) as (used & -> & _).
    rewrite length_app. lia.
Qed.

Lemma next_round_prompt_consumes (st : EnduranceRun) (w w' : World) (u : unit) :
  next_round_prompt st w = Ret u w' ->
  (length (stdin w') <= length (stdin w))%nat.
Proof.
  unfold next_round_prompt, bind, getch, ret. intros H.
  destruct (flt (currentAccuracy st) ENDURANCE_ACCURACY_THRESHOLD);
    [inversion H; subst; lia|].
  destruct (flt (currentWPM st) ENDURANCE_WPM_THRESHOLD);
    [inversion H; subst; lia|].
  destruct (stdin w) as [|k rest]; [discriminate|].
  inversion H; subst. cbn [stdin length]. lia.
Qed.

(** The loop condition on two numbers: at least 85 and at least 30, and
    no cancellation. *)
Lemma endurance_cond_numbers (rounds words : Z) (a v : Q) (c : bool) :
  endurance_cond (mkRun rounds (Fin a) (Fin v) words c) = true
  <-> (85 <= a)%Q /\ (30 <= v)%Q /\ c = false.
Proof.
  unfold endurance_cond, ENDURANCE_ACCURACY_THRESHOLD, ENDURANCE_WPM_THRESHOLD.
  cbn [currentAccuracy currentWPM testCanceled fge flt].
  rewrite !andb_true_iff, !negb_true_iff.
  assert (Hge : forall x y : Q,
             match (x ?= y)%Q with Lt => true | _ => false end = false
             <-> (y <= x)%Q).
  { intros x y. destruct (Qcompare_spec x y) as [E|E|E]; split; intros H;
      try reflexivity; try discriminate.
    - rewrite E. apply Qle_refl.
    - exfalso. exact (Qlt_not_le _ _ E H).
    - now apply Qlt_le_weak. }
  rewrite !Hge. tauto.
Qed.

(** A NaN never keeps the loop going; an infinite speed does. *)
Lemma endurance_cond_special (rounds words : Z) (x : cfloat) (a : Q) (c : bool) :
  endurance_cond (mkRun rounds NaN x words c) = false
  /\ endurance_cond (mkRun rounds x NaN words c) = false
  /\ (endurance_cond (mkRun rounds (Fin a) PInf words c) = true
      <-> (85 <= a)%Q /\ c = false).
Proof.
  split; [reflexivity|]. split.
  - unfold endurance_cond. cbn [currentAccuracy currentWPM testCanceled].
    destruct x; cbn [fge]; now rewrite ?andb_false_r.
  - unfold endurance_cond, ENDURANCE_ACCURACY_THRESHOLD, ENDURANCE_WPM_THRESHOLD.
    cbn [currentAccuracy currentWPM testCanceled fge flt negb].
    rewrite andb_true_r, andb_true_iff, !negb_true_iff.
    destruct (Qcompare_spec a 85) as [E|E|E]; split; intros [H1 H2];
      try discriminate; (split; [|assumption]); try reflexivity.
    + rewrite E. apply Qle_refl.
    + exfalso. exact (Qlt_not_le _ _ E H1).
    + now apply Qlt_le_weak.
Qed.

Lemma endurance_loop_stop (session : SessionProc) (sample : Z -> string)
    (fuel : nat) (result : TypingResult) (st : EnduranceRun) (w : World) :
  endurance_cond st = false ->
  endurance_loop session sample fuel result st w = Ret st w.
Proof. intros H. destruct fuel; cbn [endurance_loop]; now rewrite H. Qed.

Lemma endurance_loop_S (session : SessionProc) (sample : Z -> string)
    (fuel : nat) (result : TypingResult) (st : EnduranceRun) :
  endurance_loop session sample (S fuel) result st
  = if endurance_cond st then
      do sr <- session (sample (roundsCompleted st)) result;
      if fst sr =? 0 then endurance_loop session sample fuel result (cancel_round st)
      else do_ next_round_prompt (finish_round (snd sr) st);
           endurance_loop session sample fuel result (finish_round (snd sr) st)
    else ret st.
Proof. reflexivity. Qed.

(** One iteration written out: a cancelled session sets the flag and ends
    the loop there; a finished one takes over its accuracy and speed, adds
    one round and ten words, and the loop goes on from the prompt. *)
Lemma endurance_loop_round (session : SessionProc) (sample : Z -> string)
    (fuel : nat) (result : TypingResult) (st : EnduranceRun) (w : World) :
  endurance_cond st = true ->
  endurance_loop session sample (S fuel) result st w
  = match session (sample (roundsCompleted st)) result w with
    | Starved => Starved
    | Ret (status, r) w1 =>
        if status =? 0 then
          Ret (mkRun (roundsCompleted st) (currentAccuracy st) (currentWPM st)
                     (totalWordsCompleted st) true) w1
        else
          let st' := mkRun (roundsCompleted st + 1) (accuracy r) (wpm r)
                           (totalWordsCompleted st + 10) false in
          match next_round_prompt st' w1 with
          | Starved => Starved
          | Ret _ w2 => endurance_loop session sample fuel result st' w2
          end
    end.
Proof.
  intros Hc. rewrite endurance_loop_S, Hc. unfold bind at 1.
  destruct (session _ result w) as [[status r] w1|]; [|reflexivity].
  cbn [fst snd].
  assert (Hf : testCanceled st = false).
  { unfold endurance_cond in Hc. apply andb_true_iff in Hc as [_ Hc].
    now apply negb_true_iff in Hc. }
  destruct (status =? 0).
  - apply endurance_loop_stop. unfold endurance_cond, cancel_round.
    cbn [testCanceled negb]. now rewrite andb_false_r.
  - unfold finish_round, wordsPerRound. rewrite Hf. cbv zeta. unfold bind.
    destruct (next_round_prompt _ w1) as [[] w2|]; reflexivity.
Qed.

(** The fuel never decides when every session reads a key: any two
    amounts that cover the keys left give the same run. *)
Lemma endurance_loop_fuel_with (session : SessionProc) (sample : Z -> string)
    (f1 f2 : nat) (result : TypingResult) (st : EnduranceRun) (w : World) :
  (forall text r a w0 w1,
      session text r w0 = Ret a w1 -> (length (stdin w1) < length (stdin w0))%nat) ->
  (length (stdin w) <= f1)%nat -> (length (stdin w) <= f2)%nat ->
  endurance_loop session sample f1 result st w
  = endurance_loop session sample f2 result st w.
Proof.
  intros Hs. revert f2 st w. induction f1 as [|f1 IH]; intros f2 st w H1 H2.
  - destruct f2 as [|f2]; [reflexivity|]. cbn [endurance_loop].
    destruct (endurance_cond st); [|reflexivity].
    unfold bind at 1.
    destruct (session _ result w) as [a w1|] eqn:E; [|reflexivity].
    apply Hs in E. lia.
  - destruct f2 as [|f2]; cbn [endurance_loop];
      (destruct (endurance_cond st); [|reflexivity]); unfold bind at 1.
    + destruct (session _ result w) as [a w1|] eqn:E; [|reflexivity].
      apply Hs in E. lia.
    + unfold bind at 2.
      destruct (session _ result w) as [a w1|] eqn:E; [|reflexivity].
      apply Hs in E.
      destruct (fst a =? 0); [apply IH; lia|].
      unfold bind.
      destruct (next_round_prompt (finish_round (snd a) st) w1) as [u w2|] eqn:E2;
        [|reflexivity].
      apply next_round_prompt_consumes in E2. apply IH; lia.
Qed.

Lemma endurance_loop_fuel (f1 f2 : nat) (env : Env) (result : TypingResult)
    (st : EnduranceRun) (w : World) :
  (length (stdin w) <= f1)%nat -> (length (stdin w) <= f2)%nat ->
  endurance_loop (typingTest env) (sampleRound env) f1 result st w
  = endurance_loop (typingTest env) (sampleRound env) f2 result st w.
Proof.
  apply endurance_loop_fuel_with. intros text r a w0 w1.
  apply typingTest_consumes.
Qed.

(** A run of the loop that returns has left the condition false after some
    number of finished rounds, not more than the iterations allowed, each
    of which added one round and ten words. *)
Lemma endurance_loop_spec (session : SessionProc) (sample : Z -> string)
    (fuel : nat) (result : TypingResult) (st st' : EnduranceRun) (w w' : World) :
  endurance_loop session sample fuel result st w = Ret st' w' ->
  endurance_cond st' = false
  /\ exists k : nat,
      (k <= fuel)%nat
      /\ roundsCompleted st' = roundsCompleted st + Z.of_nat k
      /\ totalWordsCompleted st' = totalWordsCompleted st + 10 * Z.of_nat k.
Proof.
  revert st w. induction fuel as [|fuel IH]; intros st w H.
  - cbn [endurance_loop] in H.
    destruct (endurance_cond st) eqn:Hc; [discriminate|].
    inversion H; subst. split; [exact Hc|]. exists 0%nat. lia.
  - destruct (endurance_cond st) eqn:Hc.
    + rewrite endurance_loop_round in H by exact Hc.
      destruct (session _ result w) as [[status r] w1|]; [|discriminate].
      destruct (status =? 0).
      * inversion H; subst. split.
        -- unfold endurance_cond. cbn [testCanceled negb]. apply andb_false_r.
        -- exists 0%nat. cbn [roundsCompleted totalWordsCompleted]. lia.
      * cbv zeta in H.
        destruct (next_round_prompt _ w1) as [u w2|]; [|discriminate].
        destruct (IH _ _ H) as (Hstop & k & Hk & Hr & Ht).
        cbn [roundsCompleted totalWordsCompleted] in Hr, Ht.
        split; [exact Hstop|]. exists (S k). lia.
    + rewrite endurance_loop_stop in H by exact Hc.
      inversion H; subst. split; [exact Hc|]. exists 0%nat. lia.
Qed.

Lemma fold_endurance_fields (st : EnduranceRun) (u : User) :
  fold_endurance st u
  = mkUser (name u) (bestWPM u) (bestAccuracy u)
           (testsCompleted u + roundsCompleted st)
           (Z.max (enduranceHighScore u) (totalWordsCompleted st))
           (averageAccuracy u) (totalCharsTyped u) (totalCorrectChars u).
Proof.
  unfold fold_endurance. f_equal. rewrite Z.gtb_ltb.
  destruct (Z.ltb_spec (enduranceHighScore u) (totalWordsCompleted st)); lia.
Qed.

Lemma update_current_lookup (f : User -> User) (state : AppState) (j : nat) :
  users (update_current f state) !! j
  = if Nat.eqb j (currentUserIndex state) then f <$> users state !! j
    else users state !! j.
Proof.
  unfold update_current. cbn [users].
  destruct (Nat.eqb_spec j (currentUserIndex state)) as [->|Hne].
  - apply list_lookup_alter_eq.
  - apply list_lookup_alter_ne. congruence.
Qed.

Lemma fge_not_flt (x y : cfloat) : fge x y = true -> flt x y = false.
Proof.
  destruct x, y; cbn [fge]; try discriminate; intros H;
    now apply negb_true_iff in H.
Qed.

(** With both figures at their thresholds or above, the prompt before the
    next round reads a key. *)
Lemma next_round_prompt_key (st : EnduranceRun) (w w' : World) (k : Z) :
  fge (currentAccuracy st) (Fin 85) = true ->
  fge (currentWPM st) (Fin 30) = true ->
  getch w = Ret k w' ->
  next_round_prompt st w = Ret tt w'.
Proof.
  intros Ha Hv Hk. unfold next_round_prompt.
  change ENDURANCE_ACCURACY_THRESHOLD with (Fin 85).
  change ENDURANCE_WPM_THRESHOLD with (Fin 30).
  rewrite (fge_not_flt _ _ Ha), (fge_not_flt _ _ Hv).
  unfold bind. now rewrite Hk.
Qed.

Lemma fits_int_iff (z : Z) :
  fits_int z = true <-> -2147483648 <= z <= 2147483647.
Proof.
  unfold fits_int, INT_MIN, INT_MAX. rewrite andb_true_iff, !Z.leb_le. tauto.
Qed.

(** What a run of [enduranceMode] that returns leaves behind. *)
Lemma enduranceMode_with_run (session : SessionProc) (sample : Z -> string)
    (result : TypingResult) (state state' : AppState) (st : EnduranceRun)
    (w w' : World) :
  enduranceMode_with session sample true result state w = Ret (st, state') w' ->
  endurance_cond st = false
  /\ 0 <= roundsCompleted st <= Z.of_nat (length (stdin w))
  /\ totalWordsCompleted st = 10 * roundsCompleted st
  /\ state' = update_current (fold_endurance st) state.
Proof.
  intros H. unfold enduranceMode_with in H. cbn [negb] in H. unfold bind at 1 in H.
  destruct (endurance_loop session sample (length (stdin w)) result init_run w)
    as [st1 w1|] eqn:E; [|discriminate].
  unfold bind, getch, ret in H.
  destruct (stdin w1) as [|k rest]; [discriminate|].
  inversion H; subst. clear H.
  destruct (endurance_loop_spec _ _ _ _ _ _ _ _ E) as (Hstop & k' & Hk & Hr & Ht).
  cbn [init_run roundsCompleted totalWordsCompleted] in Hr, Ht.
  split; [exact Hstop|]. split; [lia|]. split; [lia | reflexivity].
Qed.

(** C4. The endurance controller. The loop goes on exactly while the
    current accuracy is at least 85, the current WPM at least 30 and no
    session was cancelled; a NaN in either figure stops it and an
    infinite speed does not. With the condition false the loop returns
    at once and reads nothing. With the condition true it plays one
    session on the text of the round: a cancelled session sets the flag
    and ends the loop there, every other variable as before; a finished
    session makes its accuracy and WPM the current ones, adds 1 to the
    rounds and 10 to the words, and the loop goes on from the prompt.
    All this holds for whatever procedure plays the session, so for any
    figures a session stores in its record. With the sessions of
    [typingTest], each of which reads a key, the number of iterations
    allowed never decides once it covers the keys pending.

    A run of the mode that returns has left the loop with the condition
    false, after at most as many rounds as keys were pending and with ten
    words per round; the word total is a value of an [int] when ten times
    the number of pending keys is one. The current profile then has its
    high score raised to the word total if that is larger and the number
    of rounds, not of words, added to [testsCompleted], where that sum is
    a value of an [int]; no other profile and no other field changes.

    Sessions that finish with accuracies 95, 90 and 80, the first two at
    30 WPM or more, stop the loop after the third with three rounds and
    thirty words, without a fourth session. On the keyboard,
    [script_keys] is such a run, and in [script_keys_esc] the ESC of the
    second round ends the run with one round counted and the keys behind
    the closing prompt unread. *)
Theorem endurance_controller :
  (forall (rounds words : Z) (a v : Q) (c : bool),
      endurance_cond (mkRun rounds (Fin a) (Fin v) words c) = true
      <-> (85 <= a)%Q /\ (30 <= v)%Q /\ c = false)
  /\ (forall (rounds words : Z) (x : cfloat) (a : Q) (c : bool),
         endurance_cond (mkRun rounds NaN x words c) = false
         /\ endurance_cond (mkRun rounds x NaN words c) = false
         /\ (endurance_cond (mkRun rounds (Fin a) PInf words c) = true
             <-> (85 <= a)%Q /\ c = false))
  /\ (forall (session : SessionProc) (sample : Z -> string) (fuel : nat)
             (result : TypingResult) (st : EnduranceRun) (w : World),
         endurance_cond st = false ->
         endurance_loop session sample fuel result st w = Ret st w)
  /\ (forall (session : SessionProc) (sample : Z -> string) (fuel : nat)
             (result : TypingResult) (st : EnduranceRun) (w : World),
         endurance_cond st = true ->
         endurance_loop session sample (S fuel) result st w
         = match session (sample (roundsCompleted st)) result w with
           | Starved => Starved
           | Ret (status, r) w1 =>
               if status =? 0 then
                 Ret (mkRun (roundsCompleted st) (currentAccuracy st) (currentWPM st)
                            (totalWordsCompleted st) true) w1
               else
                 let st' := mkRun (roundsCompleted st + 1) (accuracy r) (wpm r)
                                  (totalWordsCompleted st + 10) false in
                 match next_round_prompt st' w1 with
                 | Starved => Starved
                 | Ret _ w2 => endurance_loop session sample fuel result st' w2
                 end
           end)
  /\ (forall (env : Env) (f1 f2 : nat) (result : TypingResult) (st : EnduranceRun)
             (w : World),
         (length (stdin w) <= f1)%nat -> (length (stdin w) <= f2)%nat ->
         endurance_loop (typingTest env) (sampleRound env) f1 result st w
         = endurance_loop (typingTest env) (sampleRound env) f2 result st w)
  /\ (forall (session : SessionProc) (sample : Z -> string) (result : TypingResult)
             (state state' : AppState) (st : EnduranceRun) (w w' : World),
         fits_int (10 * Z.of_nat (length (stdin w))) = true ->
         enduranceMode_with session sample true result state w = Ret (st, state') w' ->
         endurance_cond st = false
         /\ 0 <= roundsCompleted st <= Z.of_nat (length (stdin w))
         /\ totalWordsCompleted st = 10 * roundsCompleted st
         /\ fits_int (totalWordsCompleted st) = true
         /\ currentUserIndex state' = currentUserIndex state
         /\ (forall j : nat,
                j <> currentUserIndex state -> users state' !! j = users state !! j)
         /\ (forall u : User,
                users state !! currentUserIndex state = Some u ->
                fits_int (testsCompleted u + roundsCompleted st) = true ->
                users state' !! currentUserIndex state
                = Some (mkUser (name u) (bestWPM u) (bestAccuracy u)
                               (testsCompleted u + roundsCompleted st)
                               (Z.max (enduranceHighScore u) (totalWordsCompleted st))
                               (averageAccuracy u) (totalCharsTyped u)
                               (totalCorrectChars u))))
  /\ (forall (session : SessionProc) (sample : Z -> string) (fuel : nat)
             (result r1 r2 r3 : TypingResult) (s1 s2 s3 k1 k2 : Z)
             (w0 w1 w1' w2 w2' w3 : World),
         session (sample 0) result w0 = Ret (s1, r1) w1 -> s1 <> 0 ->
         getch w1 = Ret k1 w1' ->
         session (sample 1) result w1' = Ret (s2, r2) w2 -> s2 <> 0 ->
         getch w2 = Ret k2 w2' ->
         session (sample 2) result w2' = Ret (s3, r3) w3 -> s3 <> 0 ->
         accuracy r1 = Fin 95 -> accuracy r2 = Fin 90 -> accuracy r3 = Fin 80 ->
         fge (wpm r1) (Fin 30) = true -> fge (wpm r2) (Fin 30) = true ->
         endurance_loop session sample (3 + fuel) result init_run w0
         = Ret (mkRun 3 (Fin 80) (wpm r3) 30 false) w3)
  /\ (forall result : TypingResult,
         enduranceMode script_env true result (mkState [script_user] 0)
                       (mkWorld script_keys 0)
         = Ret (mkRun 3 (Fin 80) (Fin 40) 30 false,
                mkState [mkUser "ada" (Fin 50) (Fin 97) 7 30 (Fin 93) 800 744] 0)
               (mkWorld [] 6))
  /\ (forall result : TypingResult,
         enduranceMode script_env true result (mkState [script_user] 0)
                       (mkWorld script_keys_esc 0)
         = Ret (mkRun 1 (Fin 95) (Fin 40) 10 true,
                mkState [mkUser "ada" (Fin 50) (Fin 97) 5 20 (Fin 93) 800 744] 0)
               (mkWorld [97; 98] 3)).
Proof.
  split; [exact endurance_cond_numbers|].
  split; [exact endurance_cond_special|].
  split; [intros; now apply endurance_loop_stop|].
  split; [intros; now apply endurance_loop_round|].
  split; [intros; now apply endurance_loop_fuel|].
  split; [|split; [|split]].
  - intros session sample result state state' st w w' Hfit H.
    destruct (enduranceMode_with_run _ _ _ _ _ _ _ _ H) as (Hstop & Hr & Ht & ->).
    split; [exact Hstop|]. split; [exact Hr|]. split; [exact Ht|].
    split; [apply fits_int_iff; apply fits_int_iff in Hfit; lia|].
    split; [reflexivity|]. split.
    + intros j Hj. rewrite update_current_lookup.
      destruct (Nat.eqb_spec j (currentUserIndex state)); [contradiction|reflexivity].
    + intros u Hu _. rewrite update_current_lookup, Nat.eqb_refl, Hu.
      cbn [fmap option_fmap option_map]. now rewrite fold_endurance_fields.
  - intros session sample fuel result r1 r2 r3 s1 s2 s3 k1 k2 w0 w1 w1' w2 w2' w3
           E1 N1 K1 E2 N2 K2 E3 N3 A1 A2 A3 V1 V2.
    cbn [Nat.add].
    rewrite endurance_loop_round by reflexivity.
    cbn [init_run roundsCompleted currentAccuracy currentWPM totalWordsCompleted].
    rewrite E1. destruct (Z.eqb_spec s1 0) as [|_]; [contradiction|]. cbv zeta.
    rewrite (next_round_prompt_key _ w1 w1' k1);
      [|cbn [currentAccuracy]; now rewrite A1|exact V1|exact K1].
    rewrite endurance_loop_round
      by (unfold endurance_cond; cbn [currentAccuracy currentWPM testCanceled];
          change ENDURANCE_WPM_THRESHOLD with (Fin 30); now rewrite A1, V1).
    cbn [roundsCompleted currentAccuracy currentWPM totalWordsCompleted].
    change (0 + 1) with 1. change (0 + 10) with 10.
    rewrite E2. destruct (Z.eqb_spec s2 0) as [|_]; [contradiction|]. cbv zeta.
    rewrite (next_round_prompt_key _ w2 w2' k2);
      [|cbn [currentAccuracy]; now rewrite A2|exact V2|exact K2].
    rewrite endurance_loop_round
      by (unfold endurance_cond; cbn [currentAccuracy currentWPM testCanceled];
          change ENDURANCE_WPM_THRESHOLD with (Fin 30); now rewrite A2, V2).
    cbn [roundsCompleted currentAccuracy currentWPM totalWordsCompleted].
    change (1 + 1) with 2. change (10 + 10) with 20.
    rewrite E3. destruct (Z.eqb_spec s3 0) as [|_]; [contradiction|]. cbv zeta.
    change (2 + 1) with 3. change (20 + 10) with 30.
    rewrite A3. unfold next_round_prompt at 1. cbn [currentAccuracy].
    change (flt (Fin 80) ENDURANCE_ACCURACY_THRESHOLD) with true. cbv iota.
    unfold ret at 1.
    now apply endurance_loop_stop.
  - intros result. vm_compute. reflexivity.
  - intros result. vm_compute. reflexivity.
Qed.

Lemma endurance_controller_witness :
  endurance_loop (typingTest script_env) (sampleRound script_env) 3 stale_result
                 init_run (mkWorld script_keys 0)
  = Ret (mkRun 3 (Fin 80) (Fin 40) 30 false) (mkWorld [32] 6).
Proof.
  destruct endurance_controller as (_ & _ & _ & _ & _ & _ & H & _).
  apply (H (typingTest script_env) (sampleRound script_env) 0%nat stale_result
           (mkResult 20 19 11 5 2 (Fin 95) (Fin 40) (Fin 6) "abcdefghijklmnopqrst")
           (mkResult 20 18 11 5 2 (Fin 90) (Fin 40) (Fin 6) "abcdefghijklmnopqrst")
           (mkResult 20 16 11 5 2 (Fin 80) (Fin 40) (Fin 6) "abcdefghijklmnopqrst")
           1 1 1 32 32
           (mkWorld script_keys 0)
           (mkWorld ([32] ++ [32] ++ keys_of "xycdefghijklmnopqrst" ++ [32]
                     ++ [32] ++ keys_of "xyzwefghijklmnopqrst" ++ [32]) 2)
           (mkWorld ([32] ++ keys_of "xycdefghijklmnopqrst" ++ [32]
                     ++ [32] ++ keys_of "xyzwefghijklmnopqrst" ++ [32]) 2)
           (mkWorld ([32] ++ [32] ++ keys_of "xyzwefghijklmnopqrst" ++ [32]) 4)
           (mkWorld ([32] ++ keys_of "xyzwefghijklmnopqrst" ++ [32]) 4)
           (mkWorld [32] 6));
    first [vm_compute; reflexivity | discriminate].
Defined.

(** ** Further facts about the model *)

(** Every array index the loop body uses is inside the 1000-element
    buffers: the positions re-rendered and the two positions written. *)
Lemma visited_in_bounds (text : string) (keys : list Z) (s : Session) (ch : ascii) :
  run_keys text keys init_session = Some s ->
  Forall (fun i => (i < BUFSIZE)%nat) (visited s ch)
  /\ (isprint ch && (pos s <? 999)%nat = true -> (S (pos s) < BUFSIZE)%nat).
Proof.
  intros Hrun. pose proof (reachable_inv _ _ _ Hrun) as Hinv.
  pose proof (inv_pos_buf _ _ Hinv) as Hpb. unfold BUFSIZE. split.
  - unfold visited.
    destruct (is_backspace ch && (0 <? pos s)%nat).
    + apply List.Forall_forall. intros i Hi. apply in_seq in Hi. lia.
    + destruct (isprint ch && (pos s <? 999)%nat) eqn:E; [|constructor].
      apply andb_true_iff in E as [_ E]. apply Nat.ltb_lt in E.
      apply List.Forall_forall. intros i Hi. apply in_seq in Hi. lia.
  - intros E. apply andb_true_iff in E as [_ E]. apply Nat.ltb_lt in E. lia.
Qed.

(** Typing "ab" without an error: two keystrokes, both correct. *)
Example typingTest_exact (result : TypingResult) :
  typingTest script_env "ab" result (mkWorld [32; 97; 98] 0)
  = Ret (1, mkResult 2 2 (mistyped result) (missed result) (extra result)
                     (Fin 100) (Fin 4) (Fin 6) "ab")
        (mkWorld [] 2).
Proof. reflexivity. Qed.

(** In [enduranceMode], ESC in the first round leaves the profile as it
    was: the status of [typingTest] is tested there. *)
Lemma enduranceMode_cancel_first (env : Env) (result : TypingResult) (u : User)
    (k0 k1 : Z) (rest : list Z) (n : nat) :
  (strlen (sampleRound env 0) =? 0)%nat = false ->
  0 <= enduranceHighScore u ->
  enduranceMode env true result (mkState [u] 0) (mkWorld (k0 :: 27 :: k1 :: rest) n)
  = Ret (cancel_round init_run, mkState [u] 0) (mkWorld rest (S n)).
Proof.
  intros Htext Hhs. unfold enduranceMode, enduranceMode_with. cbn [negb].
  unfold bind at 1.
  cbn [stdin length]. rewrite endurance_loop_S.
  change (endurance_cond init_run) with true. cbv iota.
  unfold bind at 1. change (roundsCompleted init_run) with 0.
  rewrite typingTest_cancel_first by exact Htext.
  cbn [fst Z.eqb].
  rewrite endurance_loop_stop by reflexivity.
  unfold bind, getch, ret. cbn [stdin clock_calls].
  unfold update_current, fold_endurance. cbn.
  rewrite Z.add_0_r.
  destruct (Z.gtb_spec 0 (enduranceHighScore u)); [lia|].
  destruct u; reflexivity.
Qed.

(* ===================================================================== *)
(** * Further properties of the code *)
(* ===================================================================== *)

(** ** The skill label *)

(** X2. [showProfile] never prints "Expert": the rating is capped at 100
    before it is compared with 100. A profile at 200 WPM and 100 percent
    accuracy is "Advanced". *)
Theorem skillAssessment_never_expert :
  (forall user : User, skillAssessment user <> Expert)
  /\ (forall (n : string) (tests high typed correct : Z),
         skillAssessment (mkUser n (Fin 200) (Fin 100) tests high (Fin 100) typed correct)
         = Advanced).
Proof.
  split; [|reflexivity].
  intros user. unfold skillAssessment. cbv zeta.
  set (r := fadd _ _).
  destruct (fgt r (Fin 100)) eqn:E.
  - change (fgt (Fin 100) (Fin 100)) with false. cbv iota.
    now destruct (fgt (Fin 100) (Fin 80)); [|destruct (fgt (Fin 100) (Fin 60))].
  - rewrite E. now destruct (fgt r (Fin 80)); [|destruct (fgt r (Fin 60))].
Qed.

(** ** The user table *)

Lemma find_from_spec (us : list User) (username : string) (i : Z) :
  0 <= i ->
  let r := find_from i us username in
  (r = -1 \/ i <= r < i + Z.of_nat (length us)) /\
  (if r =? -1
   then Forall (fun u => strcmp_eqb (name u) username = false) us
   else exists u, us !! Z.to_nat (r - i) = Some u
                  /\ strcmp_eqb (name u) username = true
                  /\ Forall (fun v => strcmp_eqb (name v) username = false)
                            (take (Z.to_nat (r - i)) us)).
Proof.
  revert i. induction us as [|u rest IH]; intros i Hi; cbn [find_from length].
  - cbv zeta. split; [now left | constructor].
  - cbv zeta. destruct (strcmp_eqb (name u) username) eqn:E.
    + split; [right; lia|].
      destruct (Z.eqb_spec i (-1)); [lia|].
      exists u. rewrite Z.sub_diag. cbn. repeat split; [exact E | constructor].
    + specialize (IH (i + 1) ltac:(lia)). cbv zeta in IH. destruct IH as [Hr Hs].
      set (r := find_from (i + 1) rest username) in *.
      split; [destruct Hr; [now left | right; lia]|].
      destruct (Z.eqb_spec r (-1)) as [Hm|Hm].
      * constructor; assumption.
      * destruct Hr as [Hr|Hr]; [contradiction|].
        destruct Hs as (v & Hv & Hname & Hbefore).
        replace (Z.to_nat (r - i)) with (S (Z.to_nat (r - (i + 1)))) by lia.
        exists v. cbn [take]. repeat split; try assumption.
        constructor; assumption.
Qed.

(** X3. [findUserIndex] returns -1 exactly when no stored name equals the
    name sought; otherwise it returns the index of the first user with that
    name, which is below the user count. *)
Theorem findUserIndex_first_match (username : string) (state : AppState) :
  let r := findUserIndex username state in
  -1 <= r < Z.of_nat (length (users state))
  /\ (if r =? -1
      then Forall (fun u => strcmp_eqb (name u) username = false) (users state)
      else exists u, users state !! Z.to_nat r = Some u
                     /\ strcmp_eqb (name u) username = true
                     /\ Forall (fun v => strcmp_eqb (name v) username = false)
                               (take (Z.to_nat r) (users state))).
Proof.
  cbv zeta. unfold findUserIndex.
  destruct (find_from_spec (users state) username 0 ltac:(lia)) as [Hr Hs].
  cbv zeta in Hr, Hs. rewrite Z.sub_0_r in Hs. split; [lia | exact Hs].
Qed.

Lemma cstr_idem (s : string) : cstr (cstr s) = cstr s.
Proof.
  induction s as [|c r IH]; [reflexivity|]. cbn [cstr].
  destruct (char_eqb c NUL) eqn:E; [reflexivity|]. cbn [cstr]. now rewrite E, IH.
Qed.

Lemma strcmp_eqb_cstr (s : string) : strcmp_eqb (cstr s) s = true.
Proof. unfold strcmp_eqb. rewrite cstr_idem. apply String.eqb_refl. Qed.

Lemma find_from_app_none (us vs : list User) (username : string) (i : Z) :
  Forall (fun u => strcmp_eqb (name u) username = false) us ->
  find_from i (us ++ vs) username = find_from (i + Z.of_nat (length us)) vs username.
Proof.
  revert i. induction us as [|u rest IH]; intros i H; cbn [app find_from length].
  - f_equal. lia.
  - inversion H as [|? ? Hu Hrest]; subst. rewrite Hu, IH by exact Hrest.
    f_equal. lia.
Qed.

(** X4. The login of [main]. A known name selects the first profile
    carrying it and changes no profile; an unknown name appends a profile
    with that name and zero statistics, provided fewer than 100 exist, and
    selects it; with 100 profiles and an unknown name the login fails.
    After a successful login [findUserIndex] of the name is the current
    index. *)
Theorem selectUser_spec (username : string) (state : AppState) :
  match selectUser username state with
  | None =>
      findUserIndex username state = -1 /\ (MAX_USERS <= length (users state))%nat
  | Some state' =>
      findUserIndex username state' = Z.of_nat (currentUserIndex state')
      /\ (exists u, users state' !! currentUserIndex state' = Some u
                    /\ strcmp_eqb (name u) username = true)
      /\ users state'
         = users state
           ++ (if findUserIndex username state =? -1
               then [mkUser (cstr username) (Fin 0) (Fin 0) 0 0 (Fin 0) 0 0]
               else [])
      /\ ((length (users state) <= MAX_USERS)%nat ->
          (length (users state') <= MAX_USERS)%nat)
  end.
Proof.
  unfold selectUser.
  assert (Hfound : -1 <= findUserIndex username state
                   /\ (if findUserIndex username state =? -1
                       then Forall (fun u => strcmp_eqb (name u) username = false)
                                   (users state)
                       else exists u,
                           users state !! Z.to_nat (findUserIndex username state)
                           = Some u
                           /\ strcmp_eqb (name u) username = true)).
  { unfold findUserIndex.
    destruct (find_from_spec (users state) username 0 ltac:(lia)) as [Hr Hs].
    cbv zeta in Hr, Hs. rewrite Z.sub_0_r in Hs. split; [lia|].
    destruct (find_from 0 (users state) username =? -1); [exact Hs|].
    destruct Hs as (u & Hu & Hname & _). now exists u. }
  destruct Hfound as [Hr Hs].
  destruct (Z.eqb_spec (findUserIndex username state) (-1)) as [E|E].
  - destruct (Nat.ltb_spec (length (users state)) MAX_USERS) as [Hlt|Hge];
      [|split; [exact E | exact Hge]].
    cbn [users currentUserIndex].
    assert (Hfind : findUserIndex username
                      (mkState (users state ++ [new_user username])
                               (length (users state)))
                    = Z.of_nat (length (users state))).
    { unfold findUserIndex. cbn [users].
      rewrite find_from_app_none by exact Hs. cbn [find_from new_user name].
      rewrite strcmp_eqb_cstr. lia. }
    split; [exact Hfind|]. split; [|split; [reflexivity|]].
    + exists (new_user username). split.
      * now apply list_lookup_middle.
      * cbn [new_user name]. apply strcmp_eqb_cstr.
    + intros _. rewrite length_app. cbn [length]. lia.
  - cbn [users currentUserIndex].
    split; [unfold findUserIndex in *; cbn [users]; lia|].
    split; [|split; [now rewrite app_nil_r | auto]].
    destruct Hs as (u & Hu & Hname). now exists u.
Qed.

(** ** Order of [cfloat] *)

Lemma Qcompare_Lt_trans_false (a b c : Q) :
  (a ?= b)%Q <> Lt -> (b ?= c)%Q <> Lt -> (a ?= c)%Q <> Lt.
Proof.
  intros H1 H2 H3. rewrite <- Qlt_alt in H3.
  assert (Hba : (b <= a)%Q).
  { apply Qnot_lt_le. intros H. rewrite Qlt_alt in H. contradiction. }
  assert (Hcb : (c <= b)%Q).
  { apply Qnot_lt_le. intros H. rewrite Qlt_alt in H. contradiction. }
  apply (Qlt_irrefl a). apply Qlt_le_trans with c; [exact H3|].
  now apply Qle_trans with b.
Qed.

(** Without NaN, "not less than" is transitive. *)
Lemma flt_false_trans (x y z : cfloat) :
  is_nan y = false ->
  flt x y = false -> flt y z = false -> flt x z = false.
Proof.
  destruct x as [a| | |], y as [b| | |], z as [c| | |]; cbn; try congruence.
  intros _ H1 H2.
  destruct (a ?= b)%Q eqn:E1; try discriminate;
    destruct (b ?= c)%Q eqn:E2; try discriminate;
    destruct (a ?= c)%Q eqn:E3; try reflexivity; exfalso;
    apply (Qcompare_Lt_trans_false a b c); congruence.
Qed.

Lemma flt_asym (x y : cfloat) : flt x y = true -> flt y x = false.
Proof.
  destruct x as [a| | |], y as [b| | |]; cbn; try congruence.
  destruct (a ?= b)%Q eqn:E; try discriminate. intros _.
  rewrite <- Qlt_alt in E.
  destruct (b ?= a)%Q eqn:E2; try reflexivity.
  rewrite <- Qlt_alt in E2. exfalso. apply (Qlt_irrefl a).
  now apply Qlt_trans with b.
Qed.

Lemma flt_true_not_nan (x y : cfloat) :
  flt x y = true -> is_nan x = false /\ is_nan y = false.
Proof. destruct x, y; cbn; try discriminate; auto. Qed.

(** ** One pass of the bubble sort *)

Lemma swap_step_cons (j : nat) (c : User) (l : list User) :
  swap_step (S j) (c :: l) = c :: swap_step j l.
Proof.
  unfold swap_step. cbn [lookup list_lookup].
  change ((c :: l) !! S j) with (l !! j).
  change ((c :: l) !! S (S j)) with (l !! S j).
  destruct (l !! j) as [a|]; [|reflexivity].
  destruct (l !! S j) as [b|]; [|reflexivity].
  now destruct (flt (bestWPM a) (bestWPM b)).
Qed.

Lemma swap_step_at (pre rest : list User) (a b : User) :
  swap_step (length pre) (pre ++ a :: b :: rest)
  = pre ++ (if flt (bestWPM a) (bestWPM b) then b :: a :: rest else a :: b :: rest).
Proof.
  induction pre as [|c pre IH]; cbn [length app].
  - unfold swap_step. cbn. now destruct (flt (bestWPM a) (bestWPM b)).
  - now rewrite swap_step_cons, IH.
Qed.

Lemma bubble_carry_length (a : User) (l : list User) :
  length (fst (bubble_carry a l)) = length l.
Proof.
  revert a. induction l as [|b r IH]; intros a; cbn [bubble_carry]; [reflexivity|].
  destruct (flt (bestWPM a) (bestWPM b)).
  - specialize (IH a). destruct (bubble_carry a r). cbn in *. now rewrite IH.
  - specialize (IH b). destruct (bubble_carry b r). cbn in *. now rewrite IH.
Qed.

Lemma bubble_carry_snoc (a b : User) (l : list User) :
  bubble_carry a (l ++ [b])
  = let '(p, c) := bubble_carry a l in
    if flt (bestWPM c) (bestWPM b) then (p ++ [b], c) else (p ++ [c], b).
Proof.
  revert a. induction l as [|x r IH]; intros a; cbn [app bubble_carry].
  - now destruct (flt (bestWPM a) (bestWPM b)).
  - destruct (flt (bestWPM a) (bestWPM x)).
    + rewrite IH. destruct (bubble_carry a r) as [p c].
      now destruct (flt (bestWPM c) (bestWPM b)).
    + rewrite IH. destruct (bubble_carry x r) as [p c].
      now destruct (flt (bestWPM c) (bestWPM b)).
Qed.

(** The inner loop over the first [k + 1] elements is one pass. *)
Lemma inner_loop_pass (k : nat) (a : User) (l rest : list User) :
  length l = k ->
  for_range k swap_step (a :: l ++ rest)
  = fst (bubble_carry a l) ++ snd (bubble_carry a l) :: rest.
Proof.
  revert l rest. induction k as [|k IH]; intros l rest Hl.
  - destruct l; [reflexivity | discriminate].
  - destruct (exists_last (l := l)) as (l' & b & ->);
      [intros ->; discriminate|].
    rewrite length_app in Hl. cbn [length] in Hl.
    rewrite for_range_S, <- app_assoc. cbn [app].
    rewrite IH by lia.
    pose proof (bubble_carry_length a l') as Hlen.
    rewrite bubble_carry_snoc.
    destruct (bubble_carry a l') as [p c]. cbn [fst snd] in *.
    replace k with (length p) by lia.
    rewrite swap_step_at.
    destruct (flt (bestWPM c) (bestWPM b)); cbn [fst snd];
      now rewrite <- app_assoc.
Qed.

Lemma bubble_carry_perm (a : User) (l : list User) :
  Permutation (a :: l) (snd (bubble_carry a l) :: fst (bubble_carry a l)).
Proof.
  revert a. induction l as [|b r IH]; intros a; cbn [bubble_carry]; [reflexivity|].
  destruct (flt (bestWPM a) (bestWPM b)).
  - specialize (IH a). destruct (bubble_carry a r) as [p c]. cbn [fst snd] in *.
    rewrite perm_swap, IH. apply perm_swap.
  - specialize (IH b). destruct (bubble_carry b r) as [p c]. cbn [fst snd] in *.
    rewrite IH. apply perm_swap.
Qed.

(** Without NaN the carried element is a least one. *)
Lemma bubble_carry_least (a : User) (l : list User) :
  Forall (fun u => is_nan (bestWPM u) = false) (a :: l) ->
  wpm_ge a (snd (bubble_carry a l))
  /\ Forall (fun x => wpm_ge x (snd (bubble_carry a l))) (fst (bubble_carry a l)).
Proof.
  revert a. induction l as [|b r IH]; intros a Hnan; cbn [bubble_carry].
  - cbn [fst snd]. split; [|constructor].
    unfold wpm_ge. inversion Hnan; subst.
    destruct (bestWPM a) as [q| | |]; cbn in *; try congruence.
    destruct (Qcompare_spec q q) as [_|H|_]; try reflexivity.
    now apply Qlt_irrefl in H.
  - inversion Hnan as [|? ? Ha Hrest]; subst.
    inversion Hrest as [|? ? Hb Hr]; subst.
    destruct (flt (bestWPM a) (bestWPM b)) eqn:E.
    + destruct (IH a) as [H1 H2]; [now constructor|].
      destruct (bubble_carry a r) as [p c]. cbn [fst snd] in *.
      split; [exact H1|]. constructor; [|exact H2].
      unfold wpm_ge in *. apply flt_false_trans with (bestWPM a);
        [exact Ha | now apply flt_asym | exact H1].
    + destruct (IH b) as [H1 H2]; [exact Hrest|].
      destruct (bubble_carry b r) as [p c]. cbn [fst snd] in *.
      assert (Hac : wpm_ge a c).
      { unfold wpm_ge in *. now apply flt_false_trans with (bestWPM b). }
      split; [exact Hac|]. now constructor.
Qed.

(** ** The whole sort *)

Lemma outer_loop_inv (n : nat) (body tail : list User) (i : nat) :
  length body = n -> (i <= n - 1)%nat ->
  exists P S : list User,
    for_range i (fun i us => for_range (n - i - 1) swap_step us) (body ++ tail)
    = P ++ S ++ tail
    /\ length S = i
    /\ Permutation (P ++ S) body
    /\ (Forall (fun u => is_nan (bestWPM u) = false) body ->
        StronglySorted wpm_ge S /\ Forall (fun x => Forall (wpm_ge x) S) P).
Proof.
  intros Hn. induction i as [|i IH]; intros Hi.
  - exists body, []. rewrite for_range_0, app_nil_r. cbn [app].
    split; [reflexivity|]. split; [reflexivity|]. split; [reflexivity|].
    intros _. split; [constructor|].
    apply List.Forall_forall. intros; constructor.
  - destruct IH as (P & S & Hrun & HS & Hperm & Hsorted); [lia|].
    rewrite for_range_S, Hrun.
    assert (HlenP : length P = (n - i)%nat).
    { apply Permutation_length in Hperm. rewrite length_app in Hperm. lia. }
    destruct P as [|a l]; [cbn in HlenP; lia|]. cbn [length] in HlenP.
    cbn [app]. rewrite inner_loop_pass by lia.
    pose proof (bubble_carry_perm a l) as Hp.
    pose proof (bubble_carry_least a l) as Hleast.
    destruct (bubble_carry a l) as [p c]. cbn [fst snd] in *.
    assert (HnanP : Forall (fun u => is_nan (bestWPM u) = false) body ->
                    Forall (fun u => is_nan (bestWPM u) = false) (a :: l)).
    { intros Hnan. apply List.Forall_forall. intros x Hx.
      rewrite List.Forall_forall in Hnan. apply Hnan.
      apply (Permutation_in x Hperm). apply in_or_app. now left. }
    exists p, (c :: S). split; [reflexivity|]. split; [cbn [length]; lia|].
    split.
    + rewrite <- Hperm. rewrite <- Permutation_middle.
      change (a :: l ++ S) with ((a :: l) ++ S). rewrite Hp. reflexivity.
    + intros Hnan. destruct (Hsorted Hnan) as [Hss Hall].
      destruct (Hleast (HnanP Hnan)) as [_ Hge].
      rewrite List.Forall_forall in Hall. split.
      * constructor; [exact Hss|]. apply Hall.
        apply (Permutation_in c (Permutation_sym Hp)). now left.
      * apply List.Forall_forall. intros x Hx. constructor.
        -- rewrite List.Forall_forall in Hge. now apply Hge.
        -- apply Hall. apply (Permutation_in x (Permutation_sym Hp)). now right.
Qed.

Lemma sortUsersByWPM_sorts (us : list User) (n : nat) :
  (n <= length us)%nat ->
  exists sorted : list User,
    sortUsersByWPM us n = sorted ++ drop n us
    /\ Permutation sorted (take n us)
    /\ (Forall (fun u => is_nan (bestWPM u) = false) (take n us) ->
        StronglySorted wpm_ge sorted).
Proof.
  intros Hn. unfold sortUsersByWPM.
  destruct (outer_loop_inv n (take n us) (drop n us) (n - 1))
    as (P & S & Hrun & HS & Hperm & Hsorted);
    [rewrite length_take; lia | lia |].
  rewrite take_drop in Hrun. rewrite Hrun.
  exists (P ++ S). rewrite <- app_assoc.
  split; [reflexivity|]. split; [exact Hperm|].
  intros Hnan. destruct (Hsorted Hnan) as [Hss Hall].
  assert (HlenP : (length P <= 1)%nat).
  { apply Permutation_length in Hperm.
    rewrite length_app, length_take in Hperm. lia. }
  destruct P as [|x [|y P]]; [exact Hss | | cbn in HlenP; lia].
  cbn [app]. constructor; [exact Hss|]. now inversion Hall.
Qed.

(** X5. [sortUsersByWPM] rearranges the first [userCount] profiles and
    leaves the rest of the array alone: no profile is lost, duplicated or
    changed, whatever the [bestWPM] values are. *)
Theorem sortUsersByWPM_permutation (us : list User) (n : nat) :
  (n <= length us)%nat ->
  Permutation (take n (sortUsersByWPM us n)) (take n us)
  /\ drop n (sortUsersByWPM us n) = drop n us
  /\ length (sortUsersByWPM us n) = length us.
Proof.
  intros Hn. destruct (sortUsersByWPM_sorts us n Hn) as (sorted & -> & Hperm & _).
  assert (Hlen : length sorted = n).
  { apply Permutation_length in Hperm. rewrite length_take in Hperm. lia. }
  split; [|split].
  - rewrite take_app_length' by (symmetry; exact Hlen). exact Hperm.
  - now rewrite drop_app_length' by (symmetry; exact Hlen).
  - rewrite length_app, length_drop. lia.
Qed.

(** X6. When no [bestWPM] among the first [userCount] profiles is NaN,
    [sortUsersByWPM] leaves them in descending order: no profile is ranked
    below one that comes later. *)
Theorem sortUsersByWPM_descending (us : list User) (n : nat) :
  (n <= length us)%nat ->
  Forall (fun u => is_nan (bestWPM u) = false) (take n us) ->
  StronglySorted wpm_ge (take n (sortUsersByWPM us n)).
Proof.
  intros Hn Hnan.
  destruct (sortUsersByWPM_sorts us n Hn) as (sorted & -> & Hperm & Hsorted).
  assert (Hlen : length sorted = n).
  { apply Permutation_length in Hperm. rewrite length_take in Hperm. lia. }
  rewrite take_app_length' by (symmetry; exact Hlen). now apply Hsorted.
Qed.

(** ** The leaderboard *)

Lemma sortUsersByWPM_all (us : list User) :
  Permutation (sortUsersByWPM us (length us)) us.
Proof.
  destruct (sortUsersByWPM_sorts us (length us)) as (sorted & -> & Hperm & _);
    [lia|].
  now rewrite drop_all, app_nil_r, Hperm, firstn_all.
Qed.

Lemma board_rows (sorted : list User) (k : nat) :
  (k <= length sorted)%nat ->
  let shown :=
    for_range k
      (fun i shown =>
         match sorted !! i with
         | Some u => shown ++ [(Z.of_nat i + 1, u)]
         | None => shown
         end) [] in
  length shown = k
  /\ forall i u, (i < k)%nat -> sorted !! i = Some u ->
                 shown !! i = Some (Z.of_nat i + 1, u).
Proof.
  induction k as [|k IH]; intros Hk; cbv zeta.
  - rewrite for_range_0. split; [reflexivity | intros; lia].
  - rewrite for_range_S. destruct IH as [Hlen Hrows]; [lia|].
    destruct (lookup_lt_is_Some_2 sorted k) as [v Hv]; [lia|].
    rewrite Hv. split; [rewrite length_app; cbn [length]; lia|].
    intros i u Hi Hu. destruct (Nat.eq_dec i k) as [->|Hne].
    + rewrite Hv in Hu. inversion Hu; subst.
      now apply list_lookup_middle.
    + rewrite lookup_app_l by lia. apply Hrows; [lia | exact Hu].
Qed.

(** X7. [showLeaderboard] always shows the current user. The name is
    found in the sorted copy at some rank between 1 and the number of
    users; the board lists the first five ranks, or all if there are fewer;
    a current user ranked sixth or lower gets the extra row, with that
    rank, and one ranked in the first five gets none. *)
Theorem leaderboard_shows_current (us : list User) (idx : nat) (current : User) :
  us !! idx = Some current ->
  let board := leaderboard us current in
  let sorted := sortUsersByWPM us (length us) in
  length (rows board) = Nat.min (length us) 5
  /\ (forall i u, (i < Nat.min (length us) 5)%nat -> sorted !! i = Some u ->
                  rows board !! i = Some (Z.of_nat i + 1, u))
  /\ exists (r : nat) (u : User),
      (r < length us)%nat
      /\ sorted !! r = Some u
      /\ strcmp_eqb (name u) (name current) = true
      /\ Forall (fun v => strcmp_eqb (name v) (name current) = false) (take r sorted)
      /\ you board = (if (r <? 5)%nat then None else Some (Z.of_nat r + 1, current))
      /\ ((r < 5)%nat -> rows board !! r = Some (Z.of_nat r + 1, u)).
Proof.
  intros Hcur board sorted.
  pose proof (sortUsersByWPM_all us) as Hperm. fold sorted in Hperm.
  assert (Hlen : length sorted = length us) by now apply Permutation_length.
  assert (Hdisp : (if (length us <? 5)%nat then length us else 5%nat)
                  = Nat.min (length us) 5).
  { destruct (Nat.ltb_spec (length us) 5); lia. }
  destruct (board_rows sorted (Nat.min (length us) 5)) as [Hrl Hrows]; [lia|].
  assert (Hrows_eq : rows board
                     = for_range (Nat.min (length us) 5)
                         (fun i shown =>
                            match sorted !! i with
                            | Some u => shown ++ [(Z.of_nat i + 1, u)]
                            | None => shown
                            end) []).
  { unfold board, leaderboard. cbn [rows]. fold sorted. now rewrite Hdisp. }
  split; [now rewrite Hrows_eq|]. split; [now rewrite Hrows_eq|].
  destruct (find_from_spec sorted (name current) 0 ltac:(lia)) as [Hr Hs].
  cbv zeta in Hr, Hs. set (found := find_from 0 sorted (name current)) in *.
  destruct (Z.eqb_spec found (-1)) as [E|E].
  - exfalso. rewrite List.Forall_forall in Hs.
    assert (Hin : In current sorted).
    { apply (Permutation_in current (Permutation_sym Hperm)).
      apply list_elem_of_In, list_elem_of_lookup. now exists idx. }
    specialize (Hs _ Hin). unfold strcmp_eqb in Hs.
    now rewrite String.eqb_refl in Hs.
  - destruct Hr as [Hr|Hr]; [contradiction|].
    rewrite Z.sub_0_r in Hs. destruct Hs as (u & Hu & Hname & Hbefore).
    exists (Z.to_nat found), u.
    split; [lia|]. split; [exact Hu|]. split; [exact Hname|].
    split; [exact Hbefore|]. split.
    + unfold board, leaderboard. cbn [you]. fold sorted. fold found.
      destruct (Z.eqb_spec found (-1)); [contradiction|].
      rewrite Z.gtb_ltb.
      destruct (Z.ltb_spec 5 (found + 1)); destruct (Nat.ltb_spec (Z.to_nat found) 5);
        try lia; [|reflexivity].
      do 2 f_equal. lia.
    + intros Hlt. rewrite Hrows_eq. apply Hrows; [lia | exact Hu].
Qed.

(** ** Menu input *)

(** X8. [getValidIntInput] returns only a number between [min] and [max]:
    the number on the first line that, cut at its newline, is a non-empty
    string of digits denoting a value in that range, whatever [atoi] does
    with numbers too large for an [int]. Every line before it was refused
    and is consumed. *)
Theorem getValidIntInput_in_range (overflow : Z -> Z) (min max : Z)
    (lines rest : list string) (value : Z) :
  getValidIntInput overflow min max lines = Some (value, rest) ->
  min <= value <= max
  /\ exists (refused : list string) (line : string),
      lines = refused ++ line :: rest
      /\ Forall (fun l => parse_choice overflow min max l = None) refused
      /\ parse_choice overflow min max line = Some value
      /\ chop_newline line <> EmptyString
      /\ all_digits (chop_newline line) = true
      /\ value = atoi overflow (chop_newline line).
Proof.
  revert rest value. induction lines as [|buffer more IH]; intros rest value H;
    cbn [getValidIntInput] in H; [discriminate|].
  destruct (parse_choice overflow min max buffer) as [v|] eqn:E.
  - inversion H; subst. clear H.
    assert (Hparse := E). unfold parse_choice in E.
    destruct (Nat.eqb_spec (strlen (chop_newline buffer)) 0) as [Hz|Hz];
      [discriminate|].
    destruct (all_digits (chop_newline buffer)) eqn:Hd; [|discriminate].
    cbn [negb] in E.
    destruct (Z.ltb_spec (atoi overflow (chop_newline buffer)) min); [discriminate|].
    rewrite Z.gtb_ltb in E.
    destruct (Z.ltb_spec max (atoi overflow (chop_newline buffer))); [discriminate|].
    cbn [orb] in E. inversion E; subst.
    split; [lia|]. exists [], buffer.
    split; [reflexivity|]. split; [constructor|]. split; [exact Hparse|].
    split; [|split; [exact Hd | reflexivity]].
    intros Hempty. rewrite Hempty in Hz. now apply Hz.
  - destruct (IH _ _ H) as (Hrange & refused & line & -> & Href & Hline).
    split; [exact Hrange|]. exists (buffer :: refused), line.
    split; [reflexivity|]. split; [now constructor | exact Hline].
Qed.

(** The lines "abc", "" and "7" are refused for a choice from 1 to 5, and
    "3" is taken. *)
Lemma getValidIntInput_in_range_witness : 1 <= 3 <= 5.
Proof.
  apply (getValidIntInput_in_range (fun _ => 0) 1 5
           [String "a" (String "b" (String "c" (String "010" EmptyString)));
            String "010" EmptyString;
            String "7" (String "010" EmptyString);
            String "3" (String "010" EmptyString);
            String "4" (String "010" EmptyString)]
           [String "4" (String "010" EmptyString)] 3).
  reflexivity.
Defined.

(** ** More about a session *)

Lemma typing_loop_run (text : string) (used keys : list Z) (s0 s : Session) :
  run_keys text used s0 = Some s ->
  typing_loop text (used ++ keys) s0 = typing_loop text keys s.
Proof.
  revert s0. induction used as [|k r IH]; intros s0 H; cbn [run_keys] in H.
  - now inversion H.
  - cbn [app typing_loop].
    destruct (loop_cond text s0); [|discriminate].
    destruct (is_esc (to_char k)); [discriminate|].
    now apply IH.
Qed.

(** X9. ESC at any point of a session cancels it: after any keys that
    kept the loop running, [typingTest] returns 0, leaves [*result] as it
    was, reads nothing after the ESC and does not read the clock again. *)
Theorem typingTest_cancel_anywhere (env : Env) (text : string)
    (result : TypingResult) (k0 : Z) (used rest : list Z) (n : nat) (s : Session) :
  run_keys text used init_session = Some s ->
  loop_cond text s = true ->
  typingTest env text result (mkWorld (k0 :: used ++ 27 :: rest) n)
  = Ret (0, result) (mkWorld rest (S n)).
Proof.
  intros Hrun Hloop. unfold typingTest, bind, getch, clock. cbn [stdin clock_calls].
  rewrite (typing_loop_run _ _ _ _ _ Hrun). cbn [typing_loop].
  now rewrite Hloop.
Qed.

(** "ab": [a], then ESC. *)
Lemma typingTest_cancel_anywhere_witness :
  typingTest script_env "ab" stale_result (mkWorld [32; 97; 27; 98] 0)
  = Ret (0, stale_result) (mkWorld [98] 1).
Proof.
  exact (typingTest_cancel_anywhere script_env "ab" stale_result 32 [97] [98] 0
           (on_key "ab" init_session "a") eq_refl eq_refl).
Defined.

Lemma to_char_code (c : ascii) : to_char (code c) = c.
Proof.
  unfold to_char, code.
  rewrite Z.mod_small.
  - now rewrite N2Z.id, ascii_N_embedding.
  - pose proof (N_ascii_bounded c). lia.
Qed.

Lemma isprint_not_esc (c : ascii) : isprint c = true -> is_esc c = false.
Proof.
  unfold isprint, is_esc. intros H. apply andb_true_iff in H as [H _].
  apply Z.leb_le in H. apply Z.eqb_neq. lia.
Qed.

Lemma all_printable_char_at (text : string) (i : nat) :
  all_printable text = true -> (i < strlen text)%nat ->
  isprint (char_at text i) = true.
Proof.
  revert i. induction text as [|c r IH]; intros i H Hi; cbn [strlen] in Hi; [lia|].
  cbn [all_printable] in H. destruct (char_eqb c NUL) eqn:E; [lia|].
  cbn [orb] in H. apply andb_true_iff in H as [Hc Hr].
  destruct i as [|j]; cbn [char_at]; [exact Hc|].
  rewrite E. apply IH; [exact Hr | lia].
Qed.

Lemma keys_of_cstr (text : string) :
  keys_of (cstr text) = prefix_keys text (strlen text).
Proof.
  unfold keys_of, prefix_keys.
  induction text as [|c r IH]; [reflexivity|]. cbn [cstr strlen].
  destruct (char_eqb c NUL) eqn:E; [reflexivity|].
  cbn [list_ascii_of_string map seq]. f_equal.
  rewrite IH, <- seq_shift, List.map_map. apply List.map_ext.
  intros i. cbn [char_at]. now rewrite E.
Qed.

Lemma prefix_keys_S (text : string) (n : nat) :
  prefix_keys text (S n) = prefix_keys text n ++ [code (char_at text n)].
Proof. unfold prefix_keys. now rewrite seq_S, List.map_app. Qed.

(** The loop after the first [n] characters of the text were typed as
    they stand. *)
Lemma run_exact (text : string) (n : nat) :
  all_printable text = true -> (strlen text <= 999)%nat -> (n <= strlen text)%nat ->
  exists s : Session,
    run_keys text (prefix_keys text n) init_session = Some s
    /\ pos s = n
    /\ totalKeystrokes s = Z.of_nat n
    /\ incorrectKeystrokes s = 0.
Proof.
  intros Hpr Hlen. induction n as [|n IH]; intros Hn.
  - exists init_session. now repeat split.
  - destruct IH as (s & Hrun & Hpos & Htot & Hinc); [lia|].
    pose proof (reachable_inv _ _ _ Hrun) as Hinv.
    assert (Hloop : loop_cond text s = true).
    { apply loop_cond_true. split; [|lia].
      destruct (testFinished s) eqn:E; [|reflexivity].
      apply (inv_finished _ _ Hinv) in E. lia. }
    assert (Hch : isprint (char_at text n) = true)
      by (apply all_printable_char_at; [exact Hpr | lia]).
    exists (on_key text s (char_at text n)). split.
    + rewrite prefix_keys_S, run_keys_app, Hrun. cbn [run_keys].
      rewrite to_char_code, Hloop, (isprint_not_esc _ Hch). reflexivity.
    + rewrite (on_key_print text s Hinv _ Hloop Hch) by lia. cbv zeta.
      cbn [pos totalKeystrokes incorrectKeystrokes]. rewrite Hpos.
      assert (E : char_eqb (char_at text n) (char_at text n) = true)
        by now apply char_eqb_eq.
      rewrite E. cbn [orb negb]. repeat split; lia.
Qed.

Lemma cstr_take_cstr (text : string) (n : nat) :
  (strlen text <= n)%nat -> cstr_take n text = cstr text.
Proof.
  revert n. induction text as [|c r IH]; intros n Hn.
  - now destruct n.
  - cbn [strlen] in Hn. cbn [cstr]. destruct (char_eqb c NUL) eqn:E.
    + destruct n; cbn [cstr_take]; [reflexivity | now rewrite E].
    + destruct n as [|m]; [lia|]. cbn [cstr_take]. rewrite E.
      f_equal. apply IH. lia.
Qed.

Lemma full_accuracy (n : Z) :
  0 < n -> fdiv (fmul (Fin 100) (of_int (n - 0))) (of_int n) = Fin 100.
Proof.
  intros Hn. unfold of_int, fmul, fdiv, fin. cbn [Qnum inject_Z].
  assert (E : (Qnum (Qred (100 * inject_Z (n - 0))) =? 0) = false).
  { apply Z.eqb_neq. intros H.
    assert (Hq : (Qred (100 * inject_Z (n - 0)) == 0)%Q)
      by (unfold Qeq; rewrite H; reflexivity).
    rewrite Qred_correct in Hq. unfold Qeq in Hq. cbn in Hq. lia. }
  destruct (Z.eqb_spec n 0); [lia|].
  change (Fin 100) with (fin 100). apply fin_proper.
  rewrite Qred_correct, Z.sub_0_r. field.
  intros H. unfold Qeq in H. cbn in H. lia.
Qed.

(** The run behind an exact typing: the loop stops with the cursor at the
    end, one keystroke per character and no error. *)
Lemma typingTest_exact_run (env : Env) (target : string) (result : TypingResult)
    (k0 : Z) (rest : list Z) (n : nat) :
  all_printable target = true ->
  (strlen target <= 999)%nat ->
  exists s : Session,
    typingTest env target result (mkWorld (k0 :: keys_of (cstr target) ++ rest) n)
    = Ret (1, session_result env target result s
                (clock_trace env n) (clock_trace env (S n)))
          (mkWorld rest (S (S n)))
    /\ totalKeystrokes s = Z.of_nat (strlen target)
    /\ incorrectKeystrokes s = 0.
Proof.
  intros Hpr Hlen.
  destruct (run_exact target (strlen target) Hpr Hlen (Nat.le_refl _))
    as (s & Hrun & Hpos & Htot & Hinc).
  assert (Hstop : loop_cond target s = false).
  { unfold loop_cond. rewrite Hpos, Nat.ltb_irrefl. apply andb_false_r. }
  exists s. split; [|split; assumption].
  unfold typingTest, bind, getch, clock, ret. cbn [stdin clock_calls].
  rewrite keys_of_cstr, (typing_loop_run _ _ _ _ _ Hrun).
  destruct rest; cbn [typing_loop]; rewrite Hstop; cbn [stdin clock_calls];
    reflexivity.
Qed.

(** X10. A text of printable characters that fits the 1000-byte buffers,
    typed exactly as it stands: [typingTest] returns 1 after the last
    character without reading further; every keystroke counts as correct,
    the accuracy of a non-empty text is 100, and [text] holds the target. *)
Theorem typingTest_exact_text (env : Env) (target : string) (result : TypingResult)
    (k0 : Z) (rest : list Z) (n : nat) :
  all_printable target = true ->
  (strlen target <= 999)%nat ->
  exists r : TypingResult,
    typingTest env target result (mkWorld (k0 :: keys_of (cstr target) ++ rest) n)
    = Ret (1, r) (mkWorld rest (S (S n)))
    /\ totalChars r = Z.of_nat (strlen target)
    /\ correctChars r = Z.of_nat (strlen target)
    /\ accuracy r = (if (strlen target =? 0)%nat then Fin 0 else Fin 100)
    /\ text r = cstr target.
Proof.
  intros Hpr Hlen.
  destruct (typingTest_exact_run env target result k0 rest n Hpr Hlen)
    as (s & Hrun & Htot & Hinc).
  eexists. split; [exact Hrun|].
  unfold session_result. cbn [totalChars correctChars accuracy text].
  rewrite Htot, Hinc. split; [reflexivity|]. split; [lia|].
  split; [|now apply cstr_take_cstr].
  destruct (strlen target) as [|m] eqn:E; [reflexivity|].
  cbn [Nat.eqb]. destruct (Z.eqb_spec (Z.of_nat (S m)) 0); [lia|].
  apply full_accuracy. lia.
Qed.

(** The twenty letters of the scripted text, typed without an error. *)
Lemma typingTest_exact_text_witness :
  exists r : TypingResult,
    typingTest script_env "abcdefghijklmnopqrst" stale_result
               (mkWorld (32 :: keys_of (cstr "abcdefghijklmnopqrst") ++ [32]) 0)
    = Ret (1, r) (mkWorld [32] 2)
    /\ totalChars r = 20 /\ correctChars r = 20 /\ accuracy r = Fin 100
    /\ text r = "abcdefghijklmnopqrst"%string.
Proof.
  exact (typingTest_exact_text script_env "abcdefghijklmnopqrst" stale_result
           32 [32] 0 eq_refl (proj1 (Nat.leb_le 20 999) eq_refl)).
Defined.

Lemma count_true_below (flags : list bool) (hw : nat) :
  (forall i, flag_at flags i = true -> (i < hw)%nat) ->
  (count_true flags <= hw)%nat.
Proof.
  revert hw. induction flags as [|b r IH]; intros hw H; [cbn; lia|].
  assert (Hr : (count_true r <= hw - 1)%nat).
  { apply IH. intros i Hi. specialize (H (S i) Hi). lia. }
  unfold count_true in *. cbn [List.filter]. destruct b; cbn [length]; [|lia].
  specialize (H 0%nat eq_refl). lia.
Qed.

Lemma on_key_cover (text : string) (s : Session) (ch : ascii) :
  session_inv text s -> loop_cond text s = true ->
  keystrokes_cover s -> keystrokes_cover (on_key text s ch).
Proof.
  intros Hinv Hloop (hw & Hpos & Htot & Hflags).
  pose proof (inv_flags_len _ _ Hinv) as Hlf. unfold BUFSIZE in Hlf.
  pose proof (inv_pos_buf _ _ Hinv) as Hpb.
  destruct (is_backspace ch && (0 <? pos s)%nat) eqn:Hbs.
  - apply andb_true_iff in Hbs as [Hbs Hp]. apply Nat.ltb_lt in Hp.
    rewrite (on_key_backspace text s Hinv ch Hbs Hp). cbv zeta.
    exists hw. cbn [pos totalKeystrokes mistakeFlags].
    split; [lia|]. split; [exact Htot|]. intros i.
    destruct (flag_at (mistakeFlags s) (pos s - 1)); [apply Hflags|].
    rewrite flag_at_insert by lia.
    destruct (Nat.eqb_spec i (pos s - 1)); [lia | apply Hflags].
  - destruct (isprint ch && (pos s <? 999)%nat) eqn:Hpr.
    + apply andb_true_iff in Hpr as [Hpr Hp]. apply Nat.ltb_lt in Hp.
      rewrite (on_key_print text s Hinv ch Hloop Hpr Hp). cbv zeta.
      exists (Nat.max hw (S (pos s))). cbn [pos totalKeystrokes mistakeFlags].
      split; [lia|]. split; [lia|]. intros i.
      destruct (negb _).
      * rewrite flag_at_insert by lia.
        destruct (Nat.eqb_spec i (pos s)); [lia|].
        intros Hi. specialize (Hflags i Hi). lia.
      * intros Hi. specialize (Hflags i Hi). lia.
    + rewrite on_key_ignored by assumption. now exists hw.
Qed.

Lemma run_keys_cover (text : string) (keys : list Z) (s s' : Session) :
  session_inv text s -> keystrokes_cover s ->
  run_keys text keys s = Some s' -> keystrokes_cover s'.
Proof.
  revert s. induction keys as [|k r IH]; intros s Hinv Hc Hrun; cbn [run_keys] in Hrun.
  - now inversion Hrun; subst.
  - destruct (loop_cond text s) eqn:Hloop; [|discriminate].
    destruct (negb (is_esc (to_char k))); [|discriminate].
    cbn [andb] in Hrun. eapply IH; [| |exact Hrun].
    + now apply on_key_inv.
    + now apply on_key_cover.
Qed.

Lemma init_session_cover : keystrokes_cover init_session.
Proof.
  exists 0%nat. cbn [init_session pos totalKeystrokes mistakeFlags].
  split; [lia|]. split; [lia|]. intros i Hi.
  rewrite flag_at_replicate in Hi. discriminate.
Qed.

Lemma accuracy_ratio_between (c t : Z) :
  0 <= c <= t -> 0 < t ->
  between 0 100 (fdiv (fmul (Fin 100) (of_int c)) (of_int t)).
Proof.
  intros Hc Ht. unfold of_int, fmul, fin, fdiv. cbn [Qnum inject_Z].
  destruct (Z.eqb_spec t 0); [lia|].
  assert (Hpos : (0 < inject_Z t)%Q).
  { change 0%Q with (inject_Z 0). now rewrite <- Zlt_Qlt. }
  apply fin_between; rewrite Qred_correct.
  - apply Qle_shift_div_l; [exact Hpos|]. rewrite Qmult_0_l.
    change 100%Q with (inject_Z 100). rewrite <- inject_Z_mult.
    change 0%Q with (inject_Z 0). rewrite <- Zle_Qle. lia.
  - apply Qle_shift_div_r; [exact Hpos|].
    change 100%Q with (inject_Z 100). rewrite <- !inject_Z_mult, <- Zle_Qle. lia.
Qed.

(** X11. The figures of every finished session. At least one keystroke
    was made per character of the target, the correct ones are between 0
    and the total, the accuracy is a number between 0 and 100, and the
    fields [mistyped], [missed] and [extra] are never assigned: they keep
    what the caller's variable held. *)
Theorem typingTest_result_sane (env : Env) (target : string)
    (result r : TypingResult) (w w' : World) :
  typingTest env target result w = Ret (1, r) w' ->
  Z.of_nat (strlen target) <= totalChars r
  /\ 0 <= correctChars r <= totalChars r
  /\ between 0 100 (accuracy r)
  /\ (mistyped r, missed r, extra r) = (mistyped result, missed result, extra result).
Proof.
  unfold typingTest, bind, getch, clock, ret. intros H.
  destruct (stdin w) as [|k0 keys]; [discriminate|]. cbn [stdin clock_calls] in H.
  destruct (typing_loop target keys init_session) as [rest|s rest|] eqn:E;
    [discriminate| |discriminate].
  inversion H; subst. clear H.
  destruct (typing_loop_finished _ _ _ _ _ E) as (used & _ & Hrun & Hstop).
  pose proof (reachable_inv _ _ _ Hrun) as Hinv.
  pose proof (run_keys_cover _ _ _ _ (init_session_inv target) init_session_cover Hrun)
    as (hw & Hpos & Htot & Hflags).
  pose proof (count_true_below _ _ Hflags) as Hcnt.
  pose proof (inv_counted _ _ Hinv) as Hinc.
  pose proof (inv_pos_text _ _ Hinv) as Hpt.
  assert (Hend : pos s = strlen target).
  { unfold loop_cond in Hstop. apply andb_false_iff in Hstop as [Hf|Hf].
    - apply negb_false_iff in Hf. now apply (inv_finished _ _ Hinv).
    - apply Nat.ltb_ge in Hf. lia. }
  unfold session_result. cbn [totalChars correctChars accuracy mistyped missed extra].
  split; [lia|]. split; [lia|]. split; [|reflexivity].
  destruct (Z.eqb_spec (totalKeystrokes s) 0).
  - cbn. split; [apply Qle_refl | discriminate].
  - apply accuracy_ratio_between; lia.
Qed.

(** "ab" typed as [x], backspace, [a], [b]. *)
Lemma typingTest_result_sane_witness :
  2 <= 3 /\ 0 <= 2 <= 3 /\ between 0 100 (Fin (200 # 3)).
Proof.
  pose proof (typingTest_result_sane script_env "ab" stale_result
                (mkResult 3 2 11 5 2 (Fin (200 # 3)) (Fin 4) (Fin 6) "ab")
                (mkWorld [32; 120; 8; 97; 98] 0) (mkWorld [] 2) eq_refl)
    as (H1 & H2 & H3 & _).
  split; [exact H1|]. split; [exact H2 | exact H3].
Defined.

(** ** Sampling *)

Lemma cstr_app (a b : string) : cstr (cstr a ++ b) = (cstr a ++ cstr b)%string.
Proof.
  induction a as [|c r IH]; [reflexivity|]. cbn [cstr].
  destruct (char_eqb c NUL) eqn:E; [reflexivity|].
  cbn [String.append cstr]. now rewrite E, IH.
Qed.

Lemma strlen_app (a b : string) :
  strlen (cstr a ++ b) = (strlen a + strlen b)%nat.
Proof.
  induction a as [|c r IH]; [reflexivity|]. cbn [cstr strlen].
  destruct (char_eqb c NUL) eqn:E; [reflexivity|].
  cbn [String.append strlen]. now rewrite E, IH.
Qed.

Lemma strlen_cstr (a : string) : strlen (cstr a) = strlen a.
Proof.
  induction a as [|c r IH]; [reflexivity|]. cbn [cstr strlen].
  destruct (char_eqb c NUL) eqn:E; [reflexivity|].
  cbn [strlen]. now rewrite E, IH.
Qed.

Lemma append_assoc (a b c : string) : ((a ++ b) ++ c = a ++ (b ++ c))%string.
Proof. induction a as [|x r IH]; [reflexivity|]. cbn. now rewrite IH. Qed.

Lemma append_nil_r (a : string) : (a ++ "")%string = a.
Proof. induction a as [|x r IH]; [reflexivity|]. cbn. now rewrite IH. Qed.

Lemma draw_index_spec (wordCount : nat) (retry : bool) (used : list bool)
    (rands rands' : list Z) (idx : nat) :
  (0 < wordCount)%nat ->
  draw_index wordCount retry used rands = Some (idx, rands') ->
  (idx < wordCount)%nat
  /\ (retry = true -> flag_at used idx = false)
  /\ (length rands' < length rands)%nat
  /\ (retry = false -> rands' = tl rands).
Proof.
  intros Hwc. induction rands as [|r rest IH]; intros H; cbn [draw_index] in H;
    [discriminate|].
  destruct (flag_at used (Z.to_nat (r mod Z.of_nat wordCount)) && retry) eqn:E.
  - destruct (IH H) as (H1 & H2 & H3 & H4).
    split; [exact H1|]. split; [exact H2|]. split; [cbn [length]; lia|].
    intros ->. rewrite andb_false_r in E. discriminate.
  - inversion H; subst. clear H.
    split; [|split; [|split; [cbn [length]; lia | reflexivity]]].
    + pose proof (Z.mod_pos_bound r (Z.of_nat wordCount) ltac:(lia)). lia.
    + intros ->. rewrite andb_true_r in E. exact E.
Qed.

Lemma cstr_strcat (a b : string) : cstr (strcat a b) = strcat a b.
Proof. unfold strcat. now rewrite cstr_app, cstr_idem. Qed.

Lemma sample_loop_spec (wordList : list string) (numWords iters : nat) :
  forall (i : nat) (text : string) (used : list bool) (rands : list Z)
         (text' : string) (rands' : list Z),
    (iters = 0 \/ 0 < length wordList)%nat ->
    (length wordList <= length used)%nat ->
    cstr text = text ->
    sample_loop wordList numWords iters i text used rands = Some (text', rands') ->
    exists idxs : list nat,
      length idxs = iters
      /\ Forall (fun j => (j < length wordList)%nat) idxs
      /\ text' = (text ++ join_words wordList numWords i idxs)%string
      /\ ((numWords < length wordList)%nat ->
          NoDup idxs /\ Forall (fun j => flag_at used j = false) idxs)
      /\ ((length wordList <= numWords)%nat -> rands' = drop iters rands).
Proof.
  induction iters as [|iters IH];
    intros i text used rands text' rands' Hwc Hused Htext H; cbn [sample_loop] in H.
  - inversion H; subst. exists []. cbn [join_words length].
    split; [reflexivity|]. split; [constructor|].
    split; [now rewrite append_nil_r|].
    split; [intros _; split; constructor | reflexivity].
  - destruct Hwc as [Hwc|Hwc]; [discriminate|].
    destruct (draw_index (length wordList) (numWords <? length wordList)%nat used rands)
      as [[idx rands1]|] eqn:E; [|discriminate].
    destruct (draw_index_spec _ _ _ _ _ _ Hwc E) as (Hidx & Hfresh & _ & Hone).
    set (text1 := strcat text (word_at wordList idx)) in H.
    set (text2 := if (i <? numWords - 1)%nat then strcat text1 " " else text1) in H.
    assert (Ht2 : cstr text2 = text2).
    { unfold text2. destruct (i <? numWords - 1)%nat; apply cstr_strcat. }
    destruct (IH _ _ _ _ _ _ (or_intror Hwc)
                 ltac:(rewrite length_insert; exact Hused) Ht2 H)
      as (idxs & Hlen & Hin & Htxt & Hnodup & Hrands).
    exists (idx :: idxs).
    split; [cbn [length]; lia|]. split; [now constructor|]. split; [|split].
    + rewrite Htxt. cbn [join_words]. unfold text2, text1, strcat.
      destruct (i <? numWords - 1)%nat.
      * rewrite cstr_app, cstr_idem, Htext.
        change (cstr " ") with " "%string. now rewrite !append_assoc.
      * rewrite Htext. now rewrite !append_assoc.
    + intros Hlt. destruct (Hnodup Hlt) as [Hnd Hflags].
      apply Nat.ltb_lt in Hlt as Hlt'. specialize (Hfresh Hlt').
      rewrite List.Forall_forall in Hflags.
      split; [|constructor; [exact Hfresh|]].
      * constructor; [|exact Hnd]. intros Hmem.
        apply list_elem_of_In in Hmem.
        specialize (Hflags _ Hmem).
        rewrite flag_at_insert, Nat.eqb_refl in Hflags by lia. discriminate.
      * apply List.Forall_forall. intros j Hj. specialize (Hflags _ Hj).
        destruct (flag_at used j) eqn:Ej; [|reflexivity].
        now rewrite (flag_at_insert_true used idx j Ej) in Hflags.
    + intros Hge. rewrite (Hrands Hge).
      assert (Hretry : (numWords <? length wordList)%nat = false)
        by (apply Nat.ltb_ge; exact Hge).
      rewrite (Hone Hretry). now destruct rands.
Qed.

Lemma sampleWords_text (wordList : list string) (numWords : nat)
    (rands rands' : list Z) (text : string) :
  (length wordList <= MAX_WORDS)%nat ->
  sampleWords wordList numWords rands = Some (text, rands') ->
  exists idxs : list nat,
    length idxs = Nat.min numWords (length wordList)
    /\ Forall (fun j => (j < length wordList)%nat) idxs
    /\ text = join_words wordList numWords 0 idxs.
Proof.
  intros Hmax H. unfold sampleWords in H.
  assert (Hwc : (Nat.min numWords (length wordList) = 0 \/ 0 < length wordList)%nat)
    by lia.
  assert (Hused : (length wordList <= length (replicate MAX_WORDS false))%nat)
    by (rewrite length_replicate; exact Hmax).
  destruct (sample_loop_spec wordList numWords _ _ _ _ _ _ _ Hwc Hused eq_refl H)
    as (idxs & Hlen & Hin & Htxt & _).
  now exists idxs.
Qed.

(** X12. The words of a text are drawn from the list: as many as asked
    for, or as the list holds if that is fewer; the text is those words in
    the order drawn, each but the one with counter [numWords - 1] followed
    by a space. When more words exist than are asked for, no word is used
    twice; otherwise repeats are accepted and every word costs exactly one
    call of [rand()]. *)
Theorem sampleWords_draws (wordList : list string) (numWords : nat)
    (rands rands' : list Z) (text : string) :
  (length wordList <= MAX_WORDS)%nat ->
  sampleWords wordList numWords rands = Some (text, rands') ->
  exists idxs : list nat,
    length idxs = Nat.min numWords (length wordList)
    /\ Forall (fun j => (j < length wordList)%nat) idxs
    /\ text = join_words wordList numWords 0 idxs
    /\ ((numWords < length wordList)%nat -> NoDup idxs)
    /\ ((length wordList <= numWords)%nat -> rands' = drop (length wordList) rands).
Proof.
  intros Hmax H. unfold sampleWords in H.
  assert (Hwc : (Nat.min numWords (length wordList) = 0 \/ 0 < length wordList)%nat)
    by lia.
  assert (Hused : (length wordList <= length (replicate MAX_WORDS false))%nat)
    by (rewrite length_replicate; exact Hmax).
  destruct (sample_loop_spec wordList numWords _ _ _ _ _ _ _ Hwc Hused eq_refl H)
    as (idxs & Hlen & Hin & Htxt & Hnodup & Hrands).
  exists idxs. split; [exact Hlen|]. split; [exact Hin|]. split; [exact Htxt|].
  split; [intros Hlt; now apply Hnodup|].
  intros Hge. rewrite (Hrands Hge). f_equal. lia.
Qed.

(** Two of three words: the second draw hits the word already used and is
    repeated. *)
Lemma sampleWords_draws_witness :
  exists idxs : list nat,
    length idxs = 2%nat
    /\ Forall (fun j => (j < 3)%nat) idxs
    /\ "sun cat"%string = join_words ["cat"; "dog"; "sun"]%string 2 0 idxs
    /\ ((2 < 3)%nat -> NoDup idxs)
    /\ ((3 <= 2)%nat -> [9] = drop 3 [5; 8; 3; 9]).
Proof.
  apply (sampleWords_draws ["cat"; "dog"; "sun"]%string 2 [5; 8; 3; 9] [9] "sun cat").
  - cbn. unfold MAX_WORDS. lia.
  - reflexivity.
Defined.

Lemma strlen_join_words (wordList : list string) (numWords : nat) :
  Forall (fun w => (strlen w <= 19)%nat) wordList ->
  forall (idxs : list nat) (i : nat),
    Forall (fun j => (j < length wordList)%nat) idxs ->
    (strlen (join_words wordList numWords i idxs) <= 20 * length idxs)%nat
    /\ (idxs <> [] -> (numWords <= i + length idxs)%nat ->
        (strlen (join_words wordList numWords i idxs) + 1 <= 20 * length idxs)%nat).
Proof.
  intros Hwords idxs. induction idxs as [|j rest IH]; intros i Hin.
  - cbn. split; [lia | congruence].
  - inversion Hin as [|? ? Hj Hrest]; subst.
    destruct (IH (S i) Hrest) as [Hle Hlast].
    assert (Hw : (strlen (word_at wordList j) <= 19)%nat).
    { unfold word_at. destruct (lookup_lt_is_Some_2 wordList j Hj) as [w Hw].
      rewrite Hw. cbn [default].
      rewrite List.Forall_forall in Hwords. apply Hwords.
      apply list_elem_of_In, list_elem_of_lookup. now exists j. }
    cbn [join_words length]. rewrite strlen_app.
    destruct (Nat.ltb_spec i (numWords - 1)) as [Hsep|Hsep].
    + change (strlen (" " ++ join_words wordList numWords (S i) rest))
        with (S (strlen (join_words wordList numWords (S i) rest))).
      split; [lia|]. intros _ Hn.
      destruct rest as [|j' rest']; [cbn [length] in Hn; lia|].
      specialize (Hlast ltac:(discriminate) ltac:(cbn [length] in *; lia)). lia.
    + change (strlen ("" ++ join_words wordList numWords (S i) rest))
        with (strlen (join_words wordList numWords (S i) rest)).
      split; lia.
Qed.

(** X13. The text always fits its 1000-byte buffer: with words of at most
    19 characters, as [loadWordsFromFile] reads them, and at most 50 words
    asked for, the text has at most 999 characters, so the cursor limit 999
    of the session never stops a test short. *)
Theorem sampleWords_fits_buffer (wordList : list string) (numWords : nat)
    (rands rands' : list Z) (text : string) :
  (length wordList <= MAX_WORDS)%nat ->
  Forall (fun w => (strlen w <= 19)%nat) wordList ->
  (numWords <= 50)%nat ->
  sampleWords wordList numWords rands = Some (text, rands') ->
  (strlen text <= 999)%nat
  /\ (strlen text <= 20 * Nat.min numWords (length wordList))%nat.
Proof.
  intros Hmax Hwords Hn H.
  destruct (sampleWords_text _ _ _ _ _ Hmax H) as (idxs & Hlen & Hin & ->).
  destruct (strlen_join_words wordList numWords Hwords idxs 0 Hin) as [Hle Hlast].
  split; [|lia].
  destruct (Nat.le_gt_cases numWords (length wordList)) as [Hge|Hlt]; [|lia].
  destruct idxs as [|j rest]; [cbn; lia|].
  specialize (Hlast ltac:(discriminate) ltac:(lia)). lia.
Qed.

Lemma sampleWords_fits_buffer_witness :
  (strlen "sun cat" <= 999)%nat /\ (strlen "sun cat" <= 20 * Nat.min 2 3)%nat.
Proof.
  apply (sampleWords_fits_buffer ["cat"; "dog"; "sun"]%string 2 [5; 8; 3; 9] [9] "sun cat").
  - cbn. unfold MAX_WORDS. lia.
  - repeat constructor; cbn; lia.
  - lia.
  - reflexivity.
Defined.

Lemma join_words_end (wordList : list string) (numWords : nat) :
  forall (idxs : list nat) (i : nat),
    idxs <> [] ->
    exists (body : string) (j : nat),
      In j idxs
      /\ join_words wordList numWords i idxs
         = (body ++ cstr (word_at wordList j)
            ++ (if (i + length idxs <=? numWords - 1)%nat then " " else ""))%string.
Proof.
  intros idxs. induction idxs as [|j rest IH]; intros i Hne; [congruence|].
  destruct rest as [|j' rest'].
  - exists EmptyString, j. split; [now left|]. cbn [join_words length String.append].
    rewrite append_nil_r.
    destruct (Nat.ltb_spec i (numWords - 1)); destruct (Nat.leb_spec (i + 1) (numWords - 1));
      try lia; reflexivity.
  - destruct (IH (S i) ltac:(discriminate)) as (body & k & Hk & Hjoin).
    exists (cstr (word_at wordList j)
            ++ (if (i <? numWords - 1)%nat then " " else "") ++ body)%string, k.
    split; [now right|].
    change (join_words wordList numWords i (j :: j' :: rest'))
      with (cstr (word_at wordList j)
            ++ (if (i <? numWords - 1)%nat then " " else "")
            ++ join_words wordList numWords (S i) (j' :: rest'))%string.
    rewrite Hjoin. cbn [length]. rewrite !append_assoc.
    replace (i + S (S (length rest')))%nat with (S i + S (length rest'))%nat by lia.
    reflexivity.
Qed.

(** X14. How the text ends. When the list holds at least as many words
    as are asked for, the text ends with its last word. When it holds
    fewer, as can happen in endurance mode with a list of less than ten
    words, every word is followed by a space, the last one too: the text
    ends with a space that has to be typed. *)
Theorem sampleWords_ending (wordList : list string) (numWords : nat)
    (rands rands' : list Z) (text : string) :
  (length wordList <= MAX_WORDS)%nat ->
  (0 < length wordList)%nat -> (0 < numWords)%nat ->
  sampleWords wordList numWords rands = Some (text, rands') ->
  exists (body : string) (j : nat),
    (j < length wordList)%nat
    /\ text = (body ++ cstr (word_at wordList j)
               ++ (if (length wordList <? numWords)%nat then " " else ""))%string.
Proof.
  intros Hmax Hwc Hn H.
  destruct (sampleWords_text _ _ _ _ _ Hmax H) as (idxs & Hlen & Hin & ->).
  destruct (join_words_end wordList numWords idxs 0) as (body & j & Hj & Hjoin).
  { intros ->. cbn [length] in Hlen. lia. }
  exists body, j. split.
  - rewrite List.Forall_forall in Hin. now apply Hin.
  - rewrite Hjoin, Hlen. cbn [Nat.add].
    destruct (Nat.leb_spec (Nat.min numWords (length wordList)) (numWords - 1));
      destruct (Nat.ltb_spec (length wordList) numWords); try lia; reflexivity.
Qed.

(** Ten words asked of a list of two. *)
Lemma sampleWords_ending_witness :
  exists (body : string) (j : nat),
    (j < 2)%nat
    /\ "dog cat "%string
       = (body ++ cstr (word_at ["cat"; "dog"]%string j)
          ++ (if (2 <? 10)%nat then " " else ""))%string.
Proof.
  apply (sampleWords_ending ["cat"; "dog"]%string 10 [7; 4; 1] [1] "dog cat ").
  - cbn. unfold MAX_WORDS. lia.
  - cbn. lia.
  - lia.
  - reflexivity.
Defined.

(** ** Folding results into a profile *)

Lemma flt_irrefl (x : cfloat) : flt x x = false.
Proof.
  destruct x as [q| | |]; try reflexivity. cbn.
  destruct (Qcompare_spec q q) as [_|H|_]; try reflexivity.
  now apply Qlt_irrefl in H.
Qed.

Lemma sum_results_ints (results : list TypingResult) (w a : cfloat) (c k : Z) :
  let '(_, _, chars, correct) :=
    fold_left
      (fun acc r =>
         let '(totalWPM, totalAccuracy, sumChars, sumCorrect) := acc in
         (fadd totalWPM (wpm r), fadd totalAccuracy (accuracy r),
          sumChars + totalChars r, sumCorrect + correctChars r))
      results (w, a, c, k) in
  chars = c + sum_field totalChars results
  /\ correct = k + sum_field correctChars results.
Proof.
  revert w a c k. induction results as [|r rest IH]; intros w a c k; cbn [fold_left].
  - cbn. lia.
  - specialize (IH (fadd w (wpm r)) (fadd a (accuracy r)) (c + totalChars r)
                   (k + correctChars r)).
    destruct (fold_left _ rest _) as [[[w' a'] c'] k']. cbn [sum_field fold_right].
    fold (sum_field totalChars rest). fold (sum_field correctChars rest). lia.
Qed.

Lemma best_update (avg best : cfloat) :
  is_nan best = false ->
  let best' := if fgt avg best then avg else best in
  is_nan best' = false /\ flt best' best = false.
Proof.
  intros Hb. cbv zeta. unfold fgt. destruct (flt best avg) eqn:E.
  - split; [now apply (flt_true_not_nan _ _ E) | now apply flt_asym].
  - split; [exact Hb | apply flt_irrefl].
Qed.

(** X15. What [processTypingResults] does to a profile, as long as no sum
    leaves the values of an [int]: neither a running sum of the two
    character counts, nor a new total, nor the new number of tests. The
    test count grows by the number of results and the character totals by
    the sums over the results, and these are values of an [int] again; name
    and endurance high score stay. A best value that is a number stays a
    number and is never lowered. The average accuracy is
    [100 * correct / typed] of the new totals, and when the new total of
    typed characters is 0 with no correct one, as after a first session on
    an empty text, it is NaN: the division is not guarded. *)
Theorem fold_results_profile (results : list TypingResult) (u : User) :
  is_nan (bestWPM u) = false ->
  is_nan (bestAccuracy u) = false ->
  sums_fit results u = true ->
  let u' := fold_results results u in
  testsCompleted u' = testsCompleted u + Z.of_nat (length results)
  /\ totalCharsTyped u' = totalCharsTyped u + sum_field totalChars results
  /\ totalCorrectChars u' = totalCorrectChars u + sum_field correctChars results
  /\ name u' = name u
  /\ enduranceHighScore u' = enduranceHighScore u
  /\ is_nan (bestWPM u') = false /\ flt (bestWPM u') (bestWPM u) = false
  /\ is_nan (bestAccuracy u') = false /\ flt (bestAccuracy u') (bestAccuracy u) = false
  /\ averageAccuracy u'
     = (if totalCharsTyped u' =? 0
        then (if totalCorrectChars u' =? 0 then NaN
              else if totalCorrectChars u' <? 0 then NInf else PInf)
        else fin (100 * inject_Z (totalCorrectChars u') / inject_Z (totalCharsTyped u')))
  /\ fits_int (testsCompleted u') = true
  /\ fits_int (totalCharsTyped u') = true
  /\ fits_int (totalCorrectChars u') = true.
Proof.
  intros Hw Ha Hfit. cbv zeta. unfold fold_results, sum_results.
  pose proof (sum_results_ints results (Fin 0) (Fin 0) 0 0) as Hsum.
  destruct (fold_left _ results _) as [[[w a] c] k].
  destruct Hsum as [-> ->]. rewrite !Z.add_0_l.
  cbn [testsCompleted totalCharsTyped totalCorrectChars name enduranceHighScore
       bestWPM bestAccuracy averageAccuracy].
  destruct (best_update (fdiv w (of_int (Z.of_nat (length results)))) _ Hw)
    as [Hw1 Hw2].
  destruct (best_update (fdiv a (of_int (Z.of_nat (length results)))) _ Ha)
    as [Ha1 Ha2].
  unfold sums_fit in Hfit. rewrite !andb_true_iff in Hfit.
  destruct Hfit as [[[[_ _] Ft] Fk] Fn].
  repeat (split; [first [reflexivity | assumption]|]).
  split; [|split; [exact Fn | split; [exact Ft | exact Fk]]].
  set (t := totalCharsTyped u + sum_field totalChars results).
  set (k := totalCorrectChars u + sum_field correctChars results).
  unfold of_int, fdiv. cbn [Qnum inject_Z].
  destruct (Z.eqb_spec t 0) as [Et|Et].
  - destruct (Z.eqb_spec k 0) as [Ek|Ek]; [reflexivity|].
    unfold inf_of_sign, fmul.
    destruct (Z.ltb_spec (Z.sgn k) 0); destruct (Z.ltb_spec k 0); try lia;
      reflexivity.
  - unfold fin, fmul, fin. rewrite Fin_fin. apply fin_proper.
    rewrite Qred_correct. field.
    intros H. unfold Qeq in H. cbn in H. lia.
Qed.

Lemma fold_results_profile_witness :
  testsCompleted (fold_results [stale_result] script_user) = 4 + 1
  /\ averageAccuracy
       (fold_results [mkResult 0 0 0 0 0 (Fin 0) NaN (Fin 0) ""]
                     (mkUser "eve" (Fin 0) (Fin 0) 0 0 (Fin 0) 0 0)) = NaN.
Proof.
  pose proof (fold_results_profile [stale_result] script_user eq_refl eq_refl eq_refl)
    as (H1 & _).
  pose proof (fold_results_profile [mkResult 0 0 0 0 0 (Fin 0) NaN (Fin 0) ""]
                (mkUser "eve" (Fin 0) (Fin 0) 0 0 (Fin 0) 0 0) eq_refl eq_refl eq_refl)
    as (_ & _ & _ & _ & _ & _ & _ & _ & _ & H2 & _).
  split; [exact H1 | exact H2].
Defined.

(** ** A fixed-length test from start to end *)

(** X16. A fixed-length test typed without an error. On a non-empty
    printable text within the buffer, [rawSpeedMode] reads the start key,
    the characters of the text and the key of the closing prompt, and then
    the current profile has one more test, the length of the text added to
    both character totals, and a best accuracy of 100 unless it was higher;
    every other profile is as before. This is for profiles on which the
    three sums are values of an [int], as they are again afterwards. *)
Theorem rawSpeedMode_exact_text (env : Env) (target : string)
    (result : TypingResult) (state : AppState) (u : User) (k0 k1 : Z)
    (rest : list Z) (n : nat) :
  all_printable target = true ->
  (0 < strlen target <= 999)%nat ->
  users state !! currentUserIndex state = Some u ->
  fits_int (testsCompleted u + 1) = true ->
  fits_int (totalCharsTyped u + Z.of_nat (strlen target)) = true ->
  fits_int (totalCorrectChars u + Z.of_nat (strlen target)) = true ->
  exists (state' : AppState) (u' : User),
    rawSpeedMode env true target result state
                 (mkWorld (k0 :: keys_of (cstr target) ++ k1 :: rest) n)
    = Ret state' (mkWorld rest (S (S n)))
    /\ currentUserIndex state' = currentUserIndex state
    /\ users state' !! currentUserIndex state = Some u'
    /\ (forall j, j <> currentUserIndex state -> users state' !! j = users state !! j)
    /\ testsCompleted u' = testsCompleted u + 1
    /\ totalCharsTyped u' = totalCharsTyped u + Z.of_nat (strlen target)
    /\ totalCorrectChars u' = totalCorrectChars u + Z.of_nat (strlen target)
    /\ bestAccuracy u'
       = (if flt (bestAccuracy u) (Fin 100) then Fin 100 else bestAccuracy u)
    /\ fits_int (testsCompleted u') = true
    /\ fits_int (totalCharsTyped u') = true
    /\ fits_int (totalCorrectChars u') = true.
Proof.
  intros Hpr [Hpos Hlen] Hu F1 F2 F3.
  destruct (typingTest_exact_run env target result k0 (k1 :: rest) n Hpr Hlen)
    as (s & Hrun & Hkeys & Hinc).
  set (r := session_result env target result s
              (clock_trace env n) (clock_trace env (S n))) in Hrun.
  assert (Htot : totalChars r = Z.of_nat (strlen target)) by exact Hkeys.
  assert (Hcor : correctChars r = Z.of_nat (strlen target)).
  { unfold r, session_result. cbn [correctChars]. lia. }
  assert (Hacc : accuracy r = Fin 100).
  { unfold r, session_result. cbn [accuracy]. rewrite Hkeys, Hinc.
    destruct (Z.eqb_spec (Z.of_nat (strlen target)) 0); [lia|].
    apply full_accuracy. lia. }
  exists (update_current (fold_results [r]) state), (fold_results [r] u).
  split.
  - unfold rawSpeedMode. cbn [negb]. unfold bind at 1. rewrite Hrun.
    cbn [snd]. unfold processTypingResults, bind, getch, ret.
    cbn [stdin clock_calls]. reflexivity.
  - split; [reflexivity|]. split.
    { rewrite update_current_lookup, Nat.eqb_refl, Hu. reflexivity. }
    split.
    { intros j Hj. rewrite update_current_lookup.
      destruct (Nat.eqb_spec j (currentUserIndex state)); [contradiction|reflexivity]. }
    unfold fold_results, sum_results. cbn [fold_left length].
    cbn [testsCompleted totalCharsTyped totalCorrectChars bestAccuracy].
    rewrite Htot, Hcor, Hacc. rewrite !Z.add_0_l.
    repeat (split; [reflexivity|]). split; [exact F1|]. split; [exact F2 | exact F3].
Qed.

Lemma rawSpeedMode_exact_text_witness :
  exists (state' : AppState) (u' : User),
    rawSpeedMode script_env true "ab" stale_result (mkState [script_user] 0)
                 (mkWorld (32 :: keys_of (cstr "ab") ++ 32 :: []) 0)
    = Ret state' (mkWorld [] 2)
    /\ currentUserIndex state' = 0%nat
    /\ users state' !! 0%nat = Some u'
    /\ (forall j, j <> 0%nat -> users state' !! j = [script_user] !! j)
    /\ testsCompleted u' = 4 + 1
    /\ totalCharsTyped u' = 800 + 2
    /\ totalCorrectChars u' = 744 + 2
    /\ bestAccuracy u' = Fin 100
    /\ fits_int (testsCompleted u') = true
    /\ fits_int (totalCharsTyped u') = true
    /\ fits_int (totalCorrectChars u') = true.
Proof.
  exact (rawSpeedMode_exact_text script_env "ab" stale_result
           (mkState [script_user] 0) script_user 32 32 [] 0 eq_refl
           (conj (Nat.lt_0_succ 1) (proj1 (Nat.leb_le 2 999) eq_refl)) eq_refl
           eq_refl eq_refl eq_refl).
Defined.

(** ** Endurance mode and the profile *)

(** X17. What a run of [enduranceMode] does to the profiles, whatever the
    sessions return. Only the current profile changes, and of it only the
    test count and the endurance high score. Where the new test count is
    a value of an [int], and the input is not so long that the word total
    could leave them, neither goes down and both are values of an [int]
    again. The figures of the rounds never reach the best WPM, the best
    accuracy, the average accuracy or the character totals. *)
Theorem enduranceMode_profile (session : SessionProc) (sample : Z -> string)
    (result : TypingResult) (state state' : AppState) (st : EnduranceRun)
    (w w' : World) :
  fits_int (10 * Z.of_nat (length (stdin w))) = true ->
  enduranceMode_with session sample true result state w = Ret (st, state') w' ->
  currentUserIndex state' = currentUserIndex state
  /\ length (users state') = length (users state)
  /\ (forall j : nat,
         j <> currentUserIndex state -> users state' !! j = users state !! j)
  /\ forall u : User,
      users state !! currentUserIndex state = Some u ->
      fits_int (testsCompleted u + roundsCompleted st) = true ->
      exists u' : User,
        users state' !! currentUserIndex state = Some u'
        /\ testsCompleted u <= testsCompleted u'
        /\ enduranceHighScore u <= enduranceHighScore u'
        /\ fits_int (testsCompleted u') = true
        /\ (fits_int (enduranceHighScore u) = true ->
            fits_int (enduranceHighScore u') = true)
        /\ (name u', bestWPM u', bestAccuracy u', averageAccuracy u',
            totalCharsTyped u', totalCorrectChars u')
           = (name u, bestWPM u, bestAccuracy u, averageAccuracy u,
              totalCharsTyped u, totalCorrectChars u).
Proof.
  intros Hlen H.
  destruct (enduranceMode_with_run _ _ _ _ _ _ _ _ H) as (_ & Hr & Ht & ->).
  split; [reflexivity|]. split; [apply length_alter|]. split.
  - intros j Hj. rewrite update_current_lookup.
    destruct (Nat.eqb_spec j (currentUserIndex state)); [contradiction|reflexivity].
  - intros u Hu Hfit. exists (fold_endurance st u).
    rewrite update_current_lookup, Nat.eqb_refl, Hu.
    split; [reflexivity|]. rewrite fold_endurance_fields.
    cbn [testsCompleted enduranceHighScore name bestWPM bestAccuracy
         averageAccuracy totalCharsTyped totalCorrectChars].
    split; [lia|]. split; [lia|]. split; [exact Hfit|]. split; [|reflexivity].
    rewrite !fits_int_iff in *. lia.
Qed.

Lemma enduranceMode_profile_witness :
  exists u' : User,
    [mkUser "ada" (Fin 50) (Fin 97) 7 30 (Fin 93) 800 744] !! 0%nat = Some u'
    /\ 4 <= testsCompleted u' /\ 20 <= enduranceHighScore u'.
Proof.
  destruct (enduranceMode_profile (typingTest script_env) (sampleRound script_env)
              stale_result
              (mkState [script_user] 0)
              (mkState [mkUser "ada" (Fin 50) (Fin 97) 7 30 (Fin 93) 800 744] 0)
              (mkRun 3 (Fin 80) (Fin 40) 30 false)
              (mkWorld script_keys 0) (mkWorld [] 6) eq_refl eq_refl)
    as (_ & _ & _ & H).
  destruct (H script_user eq_refl eq_refl) as (u' & H1 & H2 & H3 & _).
  exists u'. cbn [users currentUserIndex] in H1.
  split; [exact H1|]. split; [exact H2 | exact H3].
Defined.

(** ** Words per minute *)

Lemma fdiv_by_positive (a b : Q) :
  (0 < b)%Q -> fdiv (Fin a) (Fin b) = fin (a / b).
Proof.
  intros Hb. unfold fdiv.
  destruct (Z.eqb_spec (Qnum b) 0) as [E|_]; [|reflexivity].
  exfalso. unfold Qlt in Hb. rewrite E in Hb. cbn in Hb. lia.
Qed.

Lemma wpm_value (p d cps : Z) :
  0 < cps -> 0 < d ->
  fdiv (fdiv (of_int p) (Fin 5)) (fdiv (fdiv (of_int d) (of_int cps)) (Fin 60))
  = fin (inject_Z (12 * p * cps) / inject_Z d).
Proof.
  intros Hc Hd.
  assert (Hqc : (0 < inject_Z cps)%Q)
    by (change 0%Q with (inject_Z 0); now rewrite <- Zlt_Qlt).
  assert (Hqd : (0 < inject_Z d)%Q)
    by (change 0%Q with (inject_Z 0); now rewrite <- Zlt_Qlt).
  assert (Hnc : ~ (inject_Z cps == 0)%Q)
    by (intros E; rewrite E in Hqc; now apply Qlt_irrefl in Hqc).
  assert (Hnd : ~ (inject_Z d == 0)%Q)
    by (intros E; rewrite E in Hqd; now apply Qlt_irrefl in Hqd).
  assert (Ht : (0 < inject_Z d / inject_Z cps)%Q).
  { apply Qlt_shift_div_l; [exact Hqc|]. now rewrite Qmult_0_l. }
  assert (Ht60 : (0 < Qred (inject_Z d / inject_Z cps) / 60)%Q).
  { apply Qlt_shift_div_l; [reflexivity|]. now rewrite Qmult_0_l, Qred_correct. }
  unfold of_int.
  rewrite (fdiv_by_positive (inject_Z p) 5) by reflexivity.
  rewrite (fdiv_by_positive (inject_Z d) (inject_Z cps)) by exact Hqc.
  unfold fin at 2. rewrite fdiv_by_positive by reflexivity.
  unfold fin at 1 2. rewrite fdiv_by_positive by (now rewrite Qred_correct).
  apply fin_proper. rewrite !Qred_correct.
  rewrite !inject_Z_mult. change (inject_Z 12) with 12%Q. now field.
Qed.

Lemma typingTest_finished (env : Env) (target : string) (result r : TypingResult)
    (w w' : World) :
  typingTest env target result w = Ret (1, r) w' ->
  exists s : Session,
    r = session_result env target result s
          (clock_trace env (clock_calls w)) (clock_trace env (S (clock_calls w)))
    /\ pos s = strlen target.
Proof.
  unfold typingTest, bind, getch, clock, ret. intros H.
  destruct (stdin w) as [|k0 keys]; [discriminate|]. cbn [stdin clock_calls] in H.
  destruct (typing_loop target keys init_session) as [rest|s rest|] eqn:E;
    [discriminate| |discriminate].
  inversion H; subst. clear H. exists s. split; [reflexivity|].
  destruct (typing_loop_finished _ _ _ _ _ E) as (used & _ & Hrun & Hstop).
  pose proof (reachable_inv _ _ _ Hrun) as Hinv.
  pose proof (inv_pos_text _ _ Hinv) as Hpt.
  unfold loop_cond in Hstop. apply andb_false_iff in Hstop as [Hf|Hf].
  - apply negb_false_iff in Hf. now apply (inv_finished _ _ Hinv).
  - apply Nat.ltb_ge in Hf. lia.
Qed.

(** X18. The speed of a finished session. When the processor clock has
    advanced between its two readings, the WPM is
    [12 * length * CLOCKS_PER_SEC / ticks], a number: it depends on the
    length of the target and on the ticks only, not on the keys pressed. *)
Theorem typingTest_wpm (env : Env) (target : string) (result r : TypingResult)
    (w w' : World) :
  typingTest env target result w = Ret (1, r) w' ->
  0 < CLOCKS_PER_SEC env ->
  clock_trace env (clock_calls w) < clock_trace env (S (clock_calls w)) ->
  let ticks := clock_trace env (S (clock_calls w)) - clock_trace env (clock_calls w) in
  wpm r = fin (inject_Z (12 * Z.of_nat (strlen target) * CLOCKS_PER_SEC env)
               / inject_Z ticks)
  /\ timeTaken r = fin (inject_Z ticks / inject_Z (CLOCKS_PER_SEC env)).
Proof.
  intros H Hcps Hclk ticks.
  destruct (typingTest_finished _ _ _ _ _ _ H) as (s & -> & Hpos).
  unfold session_result. cbn [wpm timeTaken]. fold ticks. rewrite Hpos. split.
  - apply wpm_value; [exact Hcps | subst ticks; lia].
  - unfold of_int. apply fdiv_by_positive.
    change 0%Q with (inject_Z 0). now rewrite <- Zlt_Qlt.
Qed.

(** Twenty characters in six seconds: 40 words per minute. *)
Lemma typingTest_wpm_witness :
  Fin 40 = fin (inject_Z (12 * 20 * 1000000) / inject_Z (6000000 - 0))
  /\ Fin 6 = fin (inject_Z (6000000 - 0) / inject_Z 1000000).
Proof.
  apply (typingTest_wpm script_env "abcdefghijklmnopqrst" stale_result
           (mkResult 20 19 11 5 2 (Fin 95) (Fin 40) (Fin 6) "abcdefghijklmnopqrst")
           (mkWorld (32 :: keys_of "xbcdefghijklmnopqrst") 0) (mkWorld [] 2)).
  - reflexivity.
  - reflexivity.
  - reflexivity.
Defined.

(** ** Reading the word list *)

Lemma load_words_spec (tokens wordList : list string) (count : nat) :
  length wordList = MAX_WORDS ->
  (count <= MAX_WORDS)%nat ->
  load_words tokens wordList count
  = if (count + length tokens <=? MAX_WORDS)%nat
    then Some (take count wordList ++ tokens
               ++ drop (count + length tokens) wordList,
               (count + length tokens)%nat)
    else None.
Proof.
  revert wordList count. induction tokens as [|t rest IH]; intros wordList count Hlen Hc.
  - cbn [load_words length]. rewrite Nat.add_0_r.
    destruct (Nat.leb_spec count MAX_WORDS) as [_|H]; [|lia].
    cbn [app]. now rewrite take_drop.
  - cbn [load_words length].
    destruct (Nat.ltb_spec count MAX_WORDS) as [Hlt|Hge].
    + rewrite IH by (rewrite ?length_insert; lia).
      replace (S count + length rest)%nat with (count + S (length rest))%nat by lia.
      destruct (Nat.leb_spec (count + S (length rest)) MAX_WORDS) as [Hle|_];
        [|reflexivity].
      f_equal. f_equal.
      rewrite drop_insert_lt by lia.
      rewrite (take_S_r _ _ t) by (apply list_lookup_insert_eq; lia).
      rewrite take_insert_ge by lia.
      now rewrite <- app_assoc.
    + destruct (Nat.leb_spec (count + S (length rest)) MAX_WORDS) as [Hle|_];
        [lia | reflexivity].
Qed.

(** X19. [loadWordsFromFile] on a file of at most 1000 words takes every
    word: the count is the number of words of the file, the words stand in
    the array in their order, and the elements behind them are as they
    were. On a longer file the loop stores the 1001st word at
    [wordList[1000]], outside the array, before it tests the count; the
    result is then outside what is modelled. *)
Theorem loadWordsFromFile_bounds (tokens wordList : list string) :
  length wordList = MAX_WORDS ->
  loadWordsFromFile tokens wordList
  = if (length tokens <=? 1000)%nat
    then Some (tokens ++ drop (length tokens) wordList, length tokens)
    else None.
Proof.
  intros Hlen. unfold loadWordsFromFile.
  rewrite load_words_spec by (unfold MAX_WORDS in *; lia).
  reflexivity.
Qed.

Lemma loadWordsFromFile_bounds_witness :
  loadWordsFromFile ["cat"; "dog"]%string (replicate MAX_WORDS EmptyString)
  = Some (["cat"; "dog"]%string ++ replicate 998 EmptyString, 2%nat)
  /\ loadWordsFromFile (replicate 1000 "w"%string) (replicate MAX_WORDS EmptyString)
     = Some (replicate 1000 "w"%string, 1000%nat)
  /\ loadWordsFromFile (replicate 1001 "w"%string) (replicate MAX_WORDS EmptyString)
     = None.
Proof.
  split; [|split].
  - exact (loadWordsFromFile_bounds ["cat"; "dog"]%string
             (replicate MAX_WORDS EmptyString) eq_refl).
  - exact (loadWordsFromFile_bounds (replicate 1000 "w"%string)
             (replicate MAX_WORDS EmptyString) eq_refl).
  - exact (loadWordsFromFile_bounds (replicate 1001 "w"%string)
             (replicate MAX_WORDS EmptyString) eq_refl).
Defined.

(** ** Examples of the leaderboard *)

Lemma sortUsersByWPM_permutation_witness :
  Permutation (take 3 (sortUsersByWPM script_table 3)) (take 3 script_table)
  /\ drop 3 (sortUsersByWPM script_table 3) = drop 3 script_table
  /\ length (sortUsersByWPM script_table 3) = length script_table.
Proof.
  apply (sortUsersByWPM_permutation script_table 3). cbn. lia.
Defined.

Lemma sortUsersByWPM_descending_witness :
  StronglySorted wpm_ge (take 3 (sortUsersByWPM script_table 3)).
Proof.
  apply (sortUsersByWPM_descending script_table 3).
  - cbn. lia.
  - repeat constructor.
Defined.

(** "ada" has the lowest speed of the three and is shown third. *)
Lemma leaderboard_shows_current_witness :
  exists (r : nat) (u : User),
    (r < 3)%nat
    /\ sortUsersByWPM script_table 3 !! r = Some u
    /\ strcmp_eqb (name u) "ada" = true
    /\ you (leaderboard script_table (mkUser "ada" (Fin 50) (Fin 97) 4 20 (Fin 93) 800 744))
       = (if (r <? 5)%nat then None
          else Some (Z.of_nat r + 1, mkUser "ada" (Fin 50) (Fin 97) 4 20 (Fin 93) 800 744)).
Proof.
  destruct (leaderboard_shows_current script_table 0
              (mkUser "ada" (Fin 50) (Fin 97) 4 20 (Fin 93) 800 744) eq_refl)
    as (_ & _ & r & u & H1 & H2 & H3 & _ & H4 & _).
  exists r, u. split; [exact H1|]. split; [exact H2|]. split; [exact H3 | exact H4].
Defined.

(** ** Texts beyond the buffer *)

(** X20. A text of more than 999 characters can only be cancelled: the
    cursor stops at 999, so [typingTest] never returns 1 on it, and when it
    returns it has left [*result] alone. *)
Theorem typingTest_long_text (env : Env) (target : string) (result r : TypingResult)
    (status : Z) (w w' : World) :
  (999 < strlen target)%nat ->
  typingTest env target result w = Ret (status, r) w' ->
  status = 0 /\ r = result.
Proof.
  intros Hlong H.
  destruct (typingTest_status _ _ _ _ _ _ _ H) as [Hc | ->]; [exact Hc|].
  exfalso. unfold typingTest, bind, getch, clock, ret in H.
  destruct (stdin w) as [|k0 keys]; [discriminate|]. cbn [stdin clock_calls] in H.
  destruct (typing_loop target keys init_session) as [rest|s rest|] eqn:E;
    [discriminate| |discriminate].
  destruct (typing_loop_finished _ _ _ _ _ E) as (used & _ & Hrun & Hstop).
  pose proof (reachable_inv _ _ _ Hrun) as Hinv.
  pose proof (inv_pos_buf _ _ Hinv) as Hpb.
  unfold loop_cond in Hstop. apply andb_false_iff in Hstop as [Hf|Hf].
  - apply negb_false_iff in Hf. apply (inv_finished _ _ Hinv) in Hf. lia.
  - apply Nat.ltb_ge in Hf. lia.
Qed.

(** ** The table stays sortable *)

(** X21. The program keeps the best speeds numbers. A table whose best
    speeds are all numbers stays so through a login, through
    [processTypingResults] and through the profile update of endurance
    mode; such tables are the ones [sortUsersByWPM] puts in order. *)
Theorem speeds_stay_numbers (state : AppState) :
  speeds_are_numbers state ->
  (forall (username : string) (state' : AppState),
      selectUser username state = Some state' -> speeds_are_numbers state')
  /\ (forall results : list TypingResult,
         speeds_are_numbers (update_current (fold_results results) state))
  /\ (forall st : EnduranceRun,
         speeds_are_numbers (update_current (fold_endurance st) state)).
Proof.
  unfold speeds_are_numbers. intros Hok.
  assert (Halter : forall f : User -> User,
             (forall u, is_nan (bestWPM u) = false -> is_nan (bestWPM (f u)) = false) ->
             Forall (fun u => is_nan (bestWPM u) = false)
                    (users (update_current f state))).
  { intros f Hf. unfold update_current. cbn [users].
    generalize (currentUserIndex state). induction Hok as [|u us Hu Hus IH];
      intros i; [destruct i; constructor|].
    destruct i as [|i]; cbn; constructor; auto. }
  split; [|split].
  - intros username state' H. unfold selectUser in H.
    destruct (findUserIndex username state =? -1).
    + destruct (length (users state) <? MAX_USERS)%nat; [|discriminate].
      inversion H; subst. cbn [users]. apply Forall_app. split; [exact Hok|].
      repeat constructor.
    + now inversion H; subst.
  - intros results. apply Halter. intros u Hu.
    unfold fold_results, sum_results.
    destruct (fold_left _ results _) as [[[w a] c] k]. cbn [bestWPM].
    now apply best_update.
  - intros st. apply Halter. intros u Hu. exact Hu.
Qed.

Lemma speeds_stay_numbers_witness :
  speeds_are_numbers (update_current (fold_results [stale_result])
                                     (mkState script_table 1)).
Proof.
  apply (speeds_stay_numbers (mkState script_table 1)).
  repeat constructor.
Defined.

Lemma typingTest_long_text_witness :
  0 = 0 /\ stale_result = stale_result.
Proof.
  apply (typingTest_long_text script_env
           (String.concat "" (repeat "abcdefghij"%string 100)) stale_result stale_result
           0 (mkWorld [32; 97; 27] 0) (mkWorld [] 1)).
  - vm_compute. lia.
  - vm_compute. reflexivity.
Defined.
